(** * pdf-to-gpt: citation extraction from PDFs, a CSV link registry and web pages

    A shallow embedding of [src/pdf-to-gpt.py] and the properties of its
    three helper functions [load_sharepoint_links], [extract_pdf_info] and
    [extract_web_info].

    Python strings are modelled as [string]; a character stands for the code
    point of the same number (0..255).  Python dictionaries whose iteration
    order is observed are ordered association lists, the others are [gmap]s.
    The external collaborators (file system, [csv.reader], [PyPDF2],
    [requests], [BeautifulSoup]) appear as data: what each call returned or
    which exception it raised. *)

From Stdlib Require Import ZArith NArith Ascii String List Lia.
From stdpp Require Import base option list gmap strings.

Local Open Scope Z_scope.

(** ** Python strings *)

Module Str.

(** [str.isspace] of one character, also the class [\s] of [re] on [str]
    patterns: TAB..CR, FS..US, SPACE, NEL and NBSP below code point 256. *)
Definition isspace (c : ascii) : bool :=
  let n := N_of_ascii c in
  ((9 <=? n) && (n <=? 13) || (28 <=? n) && (n <=? 32)
   || (n =? 133) || (n =? 160))%N.

Fixpoint lstrip (s : string) : string :=
  match s with
  | "" => ""
  | String c s' => if isspace c then lstrip s' else s
  end.

Fixpoint rstrip (s : string) : string :=
  match s with
  | "" => ""
  | String c s' =>
      match rstrip s' with
      | "" => if isspace c then "" else String c ""
      | r => String c r
      end
  end.

(** [s.strip()] *)
Definition strip (s : string) : string := lstrip (rstrip s).

Definition lower_char (c : ascii) : ascii :=
  let n := N_of_ascii c in
  if ((65 <=? n) && (n <=? 90)
      || (192 <=? n) && (n <=? 222) && negb (n =? 215))%N
  then ascii_of_N (n + 32) else c.

(** [s.lower()] *)
Fixpoint lower (s : string) : string :=
  match s with
  | "" => ""
  | String c s' => String (lower_char c) (lower s')
  end.

(** [re.sub(r'\s+', ' ', s)]: the scan replaces every maximal run of
    whitespace by one space; [in_run] tells that the previous character
    belonged to the run being replaced. *)
Fixpoint sub_ws (in_run : bool) (s : string) : string :=
  match s with
  | "" => ""
  | String c s' =>
      if isspace c
      then if in_run then sub_ws true s' else String " " (sub_ws true s')
      else String c (sub_ws false s')
  end.

Definition re_sub_ws (s : string) : string := sub_ws false s.

(** [re.sub(r'\s+', ' ', text).strip()], lines 85 and 126. *)
Definition normalize_ws (text : string) : string := strip (re_sub_ws text).

(** [sep.join(l)] *)
Fixpoint join (sep : string) (l : list string) : string :=
  match l with
  | [] => ""
  | [x] => x
  | x :: l' => x +:+ sep +:+ join sep l'
  end.

(** [s.rfind(c)] for a one-character needle: the last index, or -1. *)
Fixpoint rfind_from (c : ascii) (s : string) (i last : Z) : Z :=
  match s with
  | "" => last
  | String a s' =>
      rfind_from c s' (i + 1) (if Ascii.eqb a c then i else last)
  end.

Definition rfind (c : ascii) (s : string) : Z := rfind_from c s 0 (-1).

(** [s[:i]] and [s[i:]] for [0 <= i]. *)
Definition slice_to (s : string) (i : Z) : string :=
  String.substring 0 (Z.to_nat i) s.

Definition slice_from (s : string) (i : Z) : string :=
  String.substring (Z.to_nat i) (String.length s - Z.to_nat i) s.

End Str.

(** ** Python values, exceptions, output and control flow *)

Module Py.

(** The exceptions that reach an [except Exception] clause.  Only
    [AttributeError] is raised by the modelled code itself (a method
    called on [None]); the others come from the collaborators. *)
Inductive exn : Type :=
| FileNotFoundError
| UnicodeDecodeError
| CsvError
| AttributeError
| PdfReadError
| ConnectionError
| TimeoutError
| HTTPError
| OtherError (msg : string).

Inductive value : Type :=
| VNone
| VStr (s : string)
| VInt (n : Z)
| VList (l : list string).

(** Truth value testing, as [if v] and [not v] do it. *)
Definition truthy (v : value) : bool :=
  match v with
  | VNone => false
  | VStr s => negb (String.eqb s "")
  | VInt n => negb (n =? 0)
  | VList l => negb (Nat.eqb (length l) 0)
  end.

(** [d.get(key)] and [d.get(key, default)] on a dictionary of values. *)
Definition get (key : string) (d : gmap string value) : value :=
  default VNone (d !! key).

Definition get_default (key : string) (dflt : value)
    (d : gmap string value) : value :=
  default dflt (d !! key).

(** A dictionary whose iteration order matters: keys in the order of
    their first insertion, [d[k] = v] keeps the place of an old key. *)
Definition odict (K V : Type) : Type := list (K * V).

Fixpoint setitem {K V} `{EqDecision K} (k : K) (v : V)
    (d : odict K V) : odict K V :=
  match d with
  | [] => [(k, v)]
  | (k', v') :: d' =>
      if decide (k = k') then (k, v) :: d' else (k', v') :: setitem k v d'
  end.

(** What the program prints. *)
Inductive line : Type :=
| DebugHeaders (fieldnames : option (list string))
| DebugNoDocumentName (row : gmap string value)
| ErrorLoading (csv_path : string) (e : exn)
| DebugNoMapping (file_name file_key : string)
| ErrorProcessing (pdf_path : string) (e : exn)
| ErrorRetrieving (url : string) (e : exn).

Inductive outcome (A : Type) : Type :=
| Ret (a : A)
| Raise (e : exn).
Arguments Ret {A} a.
Arguments Raise {A} e.

(** The frame of a call: the object the function builds and returns
    ([mapping] or [citations]) and the standard output so far. *)
Record frame (V : Type) : Type := Frame { obj : V; stdout : list line }.
Arguments Frame {V} obj stdout.
Arguments obj {V} f.
Arguments stdout {V} f.

(** Statements: they read and write the frame and return or raise. *)
Definition M (V A : Type) : Type := frame V -> outcome A * frame V.

Definition ret {V A} (a : A) : M V A := fun f => (Ret a, f).

Definition bind {V A B} (c : M V A) (k : A -> M V B) : M V B :=
  fun f => match c f with
           | (Ret a, f') => k a f'
           | (Raise e, f') => (Raise e, f')
           end.

Definition raise {V A} (e : exn) : M V A := fun f => (Raise e, f).

(** Lifts the result of a call to a collaborator. *)
Definition lift {V A} (o : outcome A) : M V A := fun f => (o, f).

Definition print {V} (l : line) : M V unit :=
  fun f => (Ret tt, Frame (obj f) (stdout f ++ [l])).

Definition update {V} (g : V -> V) : M V unit :=
  fun f => (Ret tt, Frame (g (obj f)) (stdout f)).

(** [try: body  except Exception as e: handler e] *)
Definition try_except {V} (body : M V unit) (handler : exn -> M V unit)
    : M V unit :=
  fun f => match body f with
           | (Ret tt, f') => (Ret tt, f')
           | (Raise e, f') => handler e f'
           end.

(** [return obj] *)
Definition return_obj {V} : M V V := fun f => (Ret (obj f), f).

(** A call: the function body runs on a fresh object and an empty
    output; the caller sees the returned value and the lines printed. *)
Definition call {V A} (init : V) (body : M V A) : outcome A * list line :=
  let '(r, f) := body (Frame init []) in (r, stdout f).

(** [v.strip()]: defined on strings only. *)
Definition method_strip {V} (v : value) : M V string :=
  match v with
  | VStr s => ret (Str.strip s)
  | _ => raise AttributeError
  end.

End Py.

Import Py.

Notation "x <- c ;; k" := (Py.bind c (fun x => k))
  (at level 100, c at next level, right associativity, only parsing).
Notation "c ;;; k" := (Py.bind c (fun _ => k))
  (at level 100, right associativity, only parsing).

(** ** LinkRegistry: [load_sharepoint_links] *)

Abbreviation entry := (gmap string string).
Abbreviation registry := (gmap string (gmap string string)).

(** What iterating [csv.reader(csvfile)] does at each step: it yields the
    fields of one record, or raises (a decoding error in the chunk just
    read, a malformed record). *)
Inductive csv_event : Type :=
| Row (fields : list string)
| ReaderRaises (e : exn).

(** What [open(csv_path, newline='', encoding='utf-8-sig')] finds. *)
Inductive csv_file : Type :=
| OpenRaises (e : exn)
| CsvFile (records : list csv_event).

(** [dict(zip(self.fieldnames, row))] of [csv.DictReader.__next__]. *)
Definition dict_zip (fieldnames row : list string)
    : odict (option string) value :=
  foldl (fun d kv => setitem (Some kv.1) (VStr kv.2) d) []
        (zip fieldnames row).

(** The dictionary [csv.DictReader.__next__] returns for a non-blank
    record, with [restkey = None] and [restval = None]: surplus fields go
    under the key [None], missing fields are [None]. *)
Definition DictReader_next (fieldnames row : list string)
    : odict (option string) value :=
  let d := dict_zip fieldnames row in
  let lf := length fieldnames in
  let lr := length row in
  if (lf <? lr)%nat then setitem None (VList (drop lf row)) d
  else if (lr <? lf)%nat
       then foldl (fun d key => setitem (Some key) VNone d) d
                  (drop lr fieldnames)
       else d.

(** Line 28: [{key.strip(): value for key, value in row.items()
    if key is not None}]. *)
Definition strip_keys (row : odict (option string) value)
    : gmap string value :=
  foldl (fun acc kv =>
           match kv.1 with
           | Some key => <[Str.strip key := kv.2]> acc
           | None => acc
           end) ∅ row.

(** Lines 28-43: the body of the loop for one row. *)
Definition load_row (row0 : odict (option string) value)
    : M registry unit :=
  let row := strip_keys row0 in
  let doc_name_raw := get "Document Name" row in
  if negb (truthy doc_name_raw) then
    print (DebugNoDocumentName row)
  else
    stripped <- method_strip doc_name_raw ;;
    let doc_name := Str.lower stripped in
    title <- method_strip (get_default "Title" (VStr "") row) ;;
    web_link <- method_strip (get_default "Web Link" (VStr "") row) ;;
    update (insert doc_name {[ "title" := title; "web_link" := web_link ]}).

(** Line 26: [for row in reader]; [DictReader] skips blank records. *)
Fixpoint for_rows (fieldnames : list string) (records : list csv_event)
    : M registry unit :=
  match records with
  | [] => ret tt
  | ReaderRaises e :: _ => raise e
  | Row [] :: rest => for_rows fieldnames rest
  | Row r :: rest =>
      load_row (DictReader_next fieldnames r) ;;; for_rows fieldnames rest
  end.

(** Lines 22-43: the body of the [try].  [reader.fieldnames] reads the
    first record; on an empty file it stays [None] and there is no row. *)
Definition load_try (file : csv_file) : M registry unit :=
  match file with
  | OpenRaises e => raise e
  | CsvFile [] => print (DebugHeaders None)
  | CsvFile (ReaderRaises e :: _) => raise e
  | CsvFile (Row fieldnames :: rest) =>
      print (DebugHeaders (Some fieldnames)) ;;; for_rows fieldnames rest
  end.

Definition load_sharepoint_links (fs : string -> csv_file)
    (csv_path : string) : outcome registry * list line :=
  call ∅
    (try_except (load_try (fs csv_path))
                (fun e => print (ErrorLoading csv_path e)) ;;;
     return_obj).

(** ** PdfExtractor: [extract_pdf_info] *)

Abbreviation citation := (gmap string value).

(** [os.path.basename] of [posixpath]: what follows the last slash. *)
Definition basename (p : string) : string :=
  let i := Str.rfind "/" p + 1 in
  Str.slice_from p i.

(** The [while] loop of [genericpath._splitext]: is there a character
    other than a dot between [filenameIndex] and [dotIndex]? *)
Fixpoint splitext_scan (p : string) (dotIndex : Z) (fuel : nat)
    (filenameIndex : Z) : bool :=
  match fuel with
  | O => false
  | S fuel' =>
      if filenameIndex <? dotIndex then
        match String.get (Z.to_nat filenameIndex) p with
        | Some "."%char => splitext_scan p dotIndex fuel' (filenameIndex + 1)
        | _ => true
        end
      else false
  end.

(** [os.path.splitext] of [posixpath]. *)
Definition splitext (p : string) : string * string :=
  let sepIndex := Str.rfind "/" p in
  let dotIndex := Str.rfind "." p in
  if (sepIndex <? dotIndex)
     && splitext_scan p dotIndex (Z.to_nat (dotIndex - (sepIndex + 1)))
                      (sepIndex + 1)
  then (Str.slice_to p dotIndex, Str.slice_from p dotIndex)
  else (p, "").

(** A page of the document: what [page.extract_text()] returns. *)
Abbreviation pdf_page := (outcome (option string)).

(** A [PyPDF2.PdfReader]: [reader.metadata] is [None] or the document
    information dictionary, whose [title] is its [/Title] entry. *)
Record pdf_reader : Type := PdfReader {
  metadata : outcome (option (gmap string string));
  pages : outcome (list pdf_page)
}.

(** What [open(pdf_path, 'rb')] and [PyPDF2.PdfReader(f)] find. *)
Inductive pdf_file : Type :=
| PdfOpenRaises (e : exn)
| PdfFile (reader : outcome pdf_reader).

(** Truth value of a dictionary that may be [None]. *)
Definition dict_truthy {A} (d : option (gmap string A)) : bool :=
  match d with
  | Some m => negb (Nat.eqb (size m) 0)
  | None => false
  end.

(** [sp_data.get(key)] *)
Definition entry_get (key : string) (sp_data : option entry) : value :=
  match sp_data with
  | Some e => from_option VStr VNone (e !! key)
  | None => VNone
  end.

(** Line 78: [metadata.title if metadata and metadata.title else
    os.path.splitext(file_name)[0]]. *)
Definition metadata_title (metadata : option (gmap string string))
    (file_name : string) : string :=
  if dict_truthy metadata && truthy (entry_get "/Title" metadata)
  then match entry_get "/Title" metadata with
       | VStr t => t
       | _ => (splitext file_name).1
       end
  else (splitext file_name).1.

(** Lines 78-81. *)
Definition resolve_title (sp_data : option entry)
    (metadata : option (gmap string string)) (file_name : string) : string :=
  let doc_title := metadata_title metadata file_name in
  if dict_truthy sp_data
  then match sp_data with
       | Some e => default doc_title (e !! "title")
       | None => doc_title
       end
  else doc_title.

(** Lines 84-95: the body of the loop for the page of index [i]. *)
Definition extract_page (doc_title : string) (sp_data : option entry)
    (i : Z) (page : pdf_page) : M (list citation) unit :=
  extracted <- lift page ;;
  let text := default "" extracted in
  let text := Str.normalize_ws text in
  let citation_entry : citation :=
    {[ "source_type" := VStr "pdf";
       "document_title" := VStr doc_title;
       "page_number" := VInt (i + 1);
       "text" := VStr text ]} in
  let citation_entry :=
    if dict_truthy sp_data && truthy (entry_get "web_link" sp_data)
    then <["web_link" := entry_get "web_link" sp_data]> citation_entry
    else citation_entry in
  update (fun citations => citations ++ [citation_entry]).

(** Line 83: [for i, page in enumerate(reader.pages)]. *)
Fixpoint for_pages (doc_title : string) (sp_data : option entry)
    (i : Z) (ps : list pdf_page) : M (list citation) unit :=
  match ps with
  | [] => ret tt
  | page :: rest =>
      extract_page doc_title sp_data i page ;;;
      for_pages doc_title sp_data (i + 1) rest
  end.

(** Lines 74-95: the body of the [try]. *)
Definition extract_pdf_try (file : pdf_file) (file_name : string)
    (sp_data : option entry) : M (list citation) unit :=
  match file with
  | PdfOpenRaises e => raise e
  | PdfFile parsed =>
      reader <- lift parsed ;;
      meta <- lift (metadata reader) ;;
      let doc_title := resolve_title sp_data meta file_name in
      ps <- lift (pages reader) ;;
      for_pages doc_title sp_data 0 ps
  end.

Definition extract_pdf_info (fs : string -> pdf_file) (pdf_path : string)
    (sharepoint_links : registry) : outcome (list citation) * list line :=
  let file_name := Str.strip (basename pdf_path) in
  let file_key := Str.lower file_name in
  let sp_data := sharepoint_links !! file_key in
  call []
    ((if negb (dict_truthy sp_data)
      then print (DebugNoMapping file_name file_key)
      else ret tt) ;;;
     try_except (extract_pdf_try (fs pdf_path) file_name sp_data)
                (fun e => print (ErrorProcessing pdf_path e)) ;;;
     return_obj).

(** ** WebExtractor: [extract_web_info] *)

(** What the program reads off the parsed page: [soup.find('title')] is
    [None] or a tag, given by its [get_text()]; a tag is always true, also
    one without contents. *)
Record soup : Type := Soup {
  title_tag : option string;
  stripped_strings : list string
}.

(** A response: what [raise_for_status()] does and what
    [BeautifulSoup(response.content, 'html.parser')] builds. *)
Record response : Type := Response {
  raise_for_status : outcome unit;
  html_parser : outcome soup
}.

(** Lines 117-134: the body of the [try]; [fetched] is what
    [requests.get(url, timeout=10)] did. *)
Definition extract_web_try (fetched : outcome response) (url : string)
    : M (list citation) unit :=
  resp <- lift fetched ;;
  lift (raise_for_status resp) ;;;
  page <- lift (html_parser resp) ;;
  let doc_title :=
    match title_tag page with
    | Some text => Str.strip text
    | None => url
    end in
  let full_text := Str.join " " (stripped_strings page) in
  let full_text := Str.normalize_ws full_text in
  update (fun citations =>
            citations ++ [ ({[ "source_type" := VStr "web";
                               "document_title" := VStr doc_title;
                               "page_number" := VNone;
                               "text" := VStr full_text;
                               "url" := VStr url ]} : citation) ]).

Definition extract_web_info (web : string -> outcome response)
    (url : string) : outcome (list citation) * list line :=
  call []
    (try_except (extract_web_try (web url) url)
                (fun e => print (ErrorRetrieving url e)) ;;;
     return_obj).

(** ** Notions used to state the properties *)

(** A record carries a field when the key is there with a value other
    than [None]; the data model of the specification does not tell an
    absent field from a null one. *)
Definition present (key : string) (c : citation) : Prop :=
  exists v, c !! key = Some v /\ v <> VNone.

(** The field of a row in the first column whose stripped name is
    [name]. *)
Fixpoint field (name : string) (fieldnames row : list string)
    : option string :=
  match fieldnames, row with
  | h :: fieldnames', x :: row' =>
      if decide (Str.strip h = name) then Some x
      else field name fieldnames' row'
  | _, _ => None
  end.

(** A header is well formed when its column names, stripped, are
    pairwise distinct. *)
Definition well_formed_header (fieldnames : list string) : Prop :=
  NoDup (Str.strip <$> fieldnames).

(** A row is complete when it has a field for every column. *)
Definition complete_row (fieldnames row : list string) : Prop :=
  (length fieldnames <= length row)%nat.

Definition has_document_name (fieldnames row : list string) : Prop :=
  exists s, field "Document Name" fieldnames row = Some s /\ s <> "".

(** The key and the entry the specification gives a row. *)
Definition row_key (fieldnames row : list string) : string :=
  Str.lower (Str.strip (default "" (field "Document Name" fieldnames row))).

Definition row_entry (fieldnames row : list string) : entry :=
  {[ "title" := Str.strip (default "" (field "Title" fieldnames row));
     "web_link" := Str.strip (default "" (field "Web Link" fieldnames row)) ]}.

Definition store_row (fieldnames : list string) (m : registry)
    (row : list string) : registry :=
  <[row_key fieldnames row := row_entry fieldnames row]> m.

(** The [try] of [load_sharepoint_links] ended in its [except] clause. *)
Definition load_failed (fs : string -> csv_file) (csv_path : string) : Prop :=
  exists e f, load_try (fs csv_path) (Frame ∅ []) = (Raise e, f).

(** The record of the page of index [i] whose text is [text]. *)
Definition page_record (doc_title : string) (sp_data : option entry)
    (i : Z) (text : option string) : citation :=
  let base : citation :=
    {[ "source_type" := VStr "pdf";
       "document_title" := VStr doc_title;
       "page_number" := VInt (i + 1);
       "text" := VStr (Str.normalize_ws (default "" text)) ]} in
  if dict_truthy sp_data && truthy (entry_get "web_link" sp_data)
  then <["web_link" := entry_get "web_link" sp_data]> base
  else base.

(** The records of the pages read before the first failing one. *)
Fixpoint emitted (doc_title : string) (sp_data : option entry) (i : Z)
    (ps : list pdf_page) : list citation :=
  match ps with
  | Ret text :: rest =>
      page_record doc_title sp_data i text
      :: emitted doc_title sp_data (i + 1) rest
  | _ => []
  end.

(** The document opens and parses, and every page yields its text. *)
Definition parses (file : pdf_file) (meta : option (gmap string string))
    (texts : list (option string)) : Prop :=
  file = PdfFile (Ret (PdfReader (Ret meta) (Ret (Ret <$> texts)))).

(** The page was fetched with a success status and parsed. *)
Definition fetched_page (fetched : outcome response) (page : soup) : Prop :=
  exists resp, fetched = Ret resp /\ raise_for_status resp = Ret tt
               /\ html_parser resp = Ret page.

(** The lookup key of a PDF: its base name, trimmed and lower-cased. *)
Definition pdf_key (pdf_path : string) : string :=
  Str.lower (Str.strip (basename pdf_path)).

(** Every whitespace character is a space and no two of them are
    adjacent; [after_ws] tells that a whitespace character precedes. *)
Fixpoint collapsed (after_ws : bool) (s : string) : Prop :=
  match s with
  | "" => True
  | String c s' =>
      if Str.isspace c then c = " "%char /\ after_ws = false /\ collapsed true s'
      else collapsed false s'
  end.

(** ** DatasetBuilder: [generate_citation_dataset] *)

(** [s.endswith(suffix)] *)
Definition endswith (suffix s : string) : bool :=
  (String.length suffix <=? String.length s)%nat
  && String.eqb
       (Str.slice_from s
          (Z.of_nat (String.length s - String.length suffix)))
       suffix.

(** [os.path.join(a, b)] of [posixpath], for one component [b]. *)
Definition path_join (a b : string) : string :=
  if String.prefix "/" b then b
  else if String.eqb a "" || endswith "/" a then a +:+ b
  else a +:+ "/" +:+ b.

(** Line 160: [file.lower().endswith('.pdf')]. *)
Definition is_pdf (file : string) : bool := endswith ".pdf" (Str.lower file).

(** What the builder prints: its own lines and those of the functions it
    calls. *)
Inductive output : Type :=
| Callee (l : line)
| ProcessingPDF (pdf_path : string)
| ProcessingURL (url : string)
| SuccessfullyWrote (n : nat) (output_file : string)
| ErrorWriting (output_file : string) (e : exn).

(** The collaborators of a run: the directory listing, the files, the
    network, and whether writing [output_file] ([open] and [json.dump])
    raises. *)
Record env : Type := Env {
  env_listdir : string -> outcome (list string);
  env_csv : string -> csv_file;
  env_pdf : string -> pdf_file;
  env_web : string -> outcome response;
  env_write : string -> outcome unit
}.

(** The state of the builder: [all_citations] and the output so far. *)
Record builder : Type := Builder {
  all_citations : list citation;
  printed : list output
}.

Definition say (o : output) (b : builder) : builder :=
  Builder (all_citations b) (printed b ++ [o]).

Definition hear (ls : list line) (b : builder) : builder :=
  Builder (all_citations b) (printed b ++ (Callee <$> ls)).

(** [all_citations.extend(citations)] *)
Definition extend (citations : list citation) (b : builder) : builder :=
  Builder (all_citations b ++ citations) (printed b).

(** Lines 159-164: [for file in os.listdir(folder)]. *)
Fixpoint for_files (E : env) (folder : string) (sharepoint_links : registry)
    (files : list string) (b : builder) : outcome unit * builder :=
  match files with
  | [] => (Ret tt, b)
  | file :: rest =>
      if is_pdf file then
        let pdf_path := path_join folder file in
        let b := say (ProcessingPDF pdf_path) b in
        let called := extract_pdf_info (env_pdf E) pdf_path sharepoint_links in
        let b := hear called.2 b in
        match called.1 with
        | Ret citations =>
            for_files E folder sharepoint_links rest (extend citations b)
        | Raise e => (Raise e, b)
        end
      else for_files E folder sharepoint_links rest b
  end.

(** Lines 167-170: [for url in urls]. *)
Fixpoint for_urls (E : env) (urls : list string) (b : builder)
    : outcome unit * builder :=
  match urls with
  | [] => (Ret tt, b)
  | url :: rest =>
      let b := say (ProcessingURL url) b in
      let called := extract_web_info (env_web E) url in
      let b := hear called.2 b in
      match called.1 with
      | Ret citations => for_urls E rest (extend citations b)
      | Raise e => (Raise e, b)
      end
  end.

(** What a run leaves: how the call ended, what it printed, and the
    dataset [{'citations': ...}] written to the output file, if the write
    went through. *)
Record run : Type := Run {
  returned : outcome unit;
  run_output : list output;
  written : option (string * list citation)
}.

(** Line 156: [load_sharepoint_links(sharepoint_csv) if sharepoint_csv
    else {}]; the path may be [None] or empty. *)
Definition load_registry (E : env) (sharepoint_csv : option string)
    (b : builder) : outcome registry * builder :=
  match sharepoint_csv with
  | Some csv_path =>
      if truthy (VStr csv_path) then
        let called := load_sharepoint_links (env_csv E) csv_path in
        (called.1, hear called.2 b)
      else (Ret ∅, b)
  | None => (Ret ∅, b)
  end.

(** Lines 173-178: the [try] around the write and its [except]. *)
Definition write_dataset (E : env) (output_file : string) (b : builder)
    : run :=
  match env_write E output_file with
  | Ret _ =>
      Run (Ret tt)
          (printed b
           ++ [SuccessfullyWrote (length (all_citations b)) output_file])
          (Some (output_file, all_citations b))
  | Raise e =>
      Run (Ret tt) (printed b ++ [ErrorWriting output_file e]) None
  end.

Definition generate_citation_dataset (E : env) (folder : string)
    (urls : list string) (sharepoint_csv : option string)
    (output_file : string) : run :=
  let b := Builder [] [] in
  match load_registry E sharepoint_csv b with
  | (Raise e, b) => Run (Raise e) (printed b) None
  | (Ret sharepoint_links, b) =>
      match env_listdir E folder with
      | Raise e => Run (Raise e) (printed b) None
      | Ret files =>
          match for_files E folder sharepoint_links files b with
          | (Raise e, b) => Run (Raise e) (printed b) None
          | (Ret _, b) =>
              match for_urls E urls b with
              | (Raise e, b) => Run (Raise e) (printed b) None
              | (Ret _, b) => write_dataset E output_file b
              end
          end
      end
  end.

(** The records a call returned, none if it raised. *)
Definition records_of (called : outcome (list citation) * list line)
    : list citation :=
  match called.1 with
  | Ret citations => citations
  | Raise _ => []
  end.

(** The records of the PDF files of a listing and of the URLs, in their
    order, and the registry a run works with. *)
Definition pdf_records (E : env) (folder : string)
    (sharepoint_links : registry) (files : list string) : list citation :=
  filter (fun file => is_pdf file = true) files ≫= fun file =>
    records_of (extract_pdf_info (env_pdf E) (path_join folder file)
                  sharepoint_links).

Definition web_records (E : env) (urls : list string) : list citation :=
  urls ≫= fun url => records_of (extract_web_info (env_web E) url).

Definition registry_for (E : env) (sharepoint_csv : option string)
    : registry :=
  match sharepoint_csv with
  | Some csv_path =>
      if truthy (VStr csv_path) then
        match (load_sharepoint_links (env_csv E) csv_path).1 with
        | Ret m => m
        | Raise _ => ∅
        end
      else ∅
  | None => ∅
  end.

(** ** Notions about strings used to state the properties *)

(** The index of the last occurrence of [c] in [s]. *)
Fixpoint last_index (c : ascii) (s : string) : option nat :=
  match s with
  | "" => None
  | String a s' =>
      match last_index c s' with
      | Some k => Some (S k)
      | None => if Ascii.eqb a c then Some O else None
      end
  end.

(** The characters of a string. *)
Fixpoint chars (s : string) : list ascii :=
  match s with
  | "" => []
  | String a s' => a :: chars s'
  end.

(** A text is clean when its only whitespace is single spaces between
    other characters. *)
Definition clean (s : string) : Prop :=
  collapsed false s /\ Str.lstrip s = s /\ Str.rstrip s = s.

(** The row has a non-empty document-name field, as a test. *)
Definition named (fieldnames row : list string) : bool :=
  match field "Document Name" fieldnames row with
  | Some s => negb (String.eqb s "")
  | None => false
  end.

(** A registry whose keys are trimmed and lower-cased and whose entries
    hold a trimmed title and a trimmed web_link, and nothing else. *)
Definition normal_registry (m : registry) : Prop :=
  forall k e, m !! k = Some e ->
    Str.lower (Str.strip k) = k
    /\ exists t w,
         e = {[ "title" := t; "web_link" := w ]}
         /\ Str.strip t = t /\ Str.strip w = w.

(** * Properties *)

(** ** Whitespace normalisation *)

Section Whitespace.

Import Str.

Lemma isspace_space : isspace " " = true.
Proof. reflexivity. Qed.

Lemma sub_ws_collapsed s : forall b, collapsed b (sub_ws b s).
Proof.
  induction s as [|c s IH]; intros b; simpl; [exact I|].
  destruct (isspace c) eqn:Hc.
  - destruct b; [apply IH|]. cbn [collapsed]. rewrite isspace_space. auto.
  - cbn [collapsed]. rewrite Hc. apply IH.
Qed.

Lemma collapsed_sub_ws s : forall b, collapsed b s -> sub_ws b s = s.
Proof.
  induction s as [|c s IH]; intros b H; simpl in *; [reflexivity|].
  destruct (isspace c).
  - destruct H as (-> & -> & H). f_equal. auto.
  - f_equal. auto.
Qed.

Lemma collapsed_weaken s : forall b, collapsed b s -> collapsed false s.
Proof.
  destruct s as [|c s]; intros b H; simpl in *; [exact I|].
  destruct (isspace c); [|exact H]. destruct H as (? & _ & ?). auto.
Qed.

Lemma lstrip_collapsed s : forall b, collapsed b s -> collapsed false (lstrip s).
Proof.
  induction s as [|c s IH]; intros b H; simpl in *; [exact I|].
  destruct (isspace c) eqn:Hc.
  - destruct H as (_ & _ & H). eauto.
  - simpl. rewrite Hc. exact H.
Qed.

Lemma rstrip_collapsed s : forall b, collapsed b s -> collapsed b (rstrip s).
Proof.
  induction s as [|c s IH]; intros b H; simpl in *; [exact I|].
  destruct (isspace c) eqn:Hc.
  - destruct H as (Hsp & Hb & H). apply IH in H.
    destruct (rstrip s) as [|c' r]; [exact I|].
    cbn [collapsed]. rewrite Hc. auto.
  - apply IH in H.
    destruct (rstrip s) as [|c' r]; cbn [collapsed]; rewrite Hc; auto.
Qed.

Lemma lstrip_idem s : lstrip (lstrip s) = lstrip s.
Proof.
  induction s as [|c s IH]; simpl; [reflexivity|].
  destruct (isspace c) eqn:Hc; [exact IH|]. simpl. now rewrite Hc.
Qed.

Lemma rstrip_idem s : rstrip (rstrip s) = rstrip s.
Proof.
  induction s as [|c s IH]; simpl; [reflexivity|].
  destruct (rstrip s) as [|c' r] eqn:Hr.
  - destruct (isspace c) eqn:Hc; simpl; [reflexivity|]. now rewrite Hc.
  - cbn [rstrip]. cbn [rstrip] in IH. rewrite IH. reflexivity.
Qed.

Lemma rstrip_lstrip_fixed s : rstrip s = s -> rstrip (lstrip s) = lstrip s.
Proof.
  induction s as [|c s IH]; simpl; [reflexivity|].
  destruct (isspace c) eqn:Hc.
  - intros H. apply IH. destruct (rstrip s); [discriminate|]. congruence.
  - intros H. cbn [rstrip]. rewrite Hc. exact H.
Qed.

Lemma strip_idem s : strip (strip s) = strip s.
Proof.
  unfold strip.
  rewrite (rstrip_lstrip_fixed (rstrip s)) by apply rstrip_idem.
  apply lstrip_idem.
Qed.

(** C9: the whitespace normalisation applied to extracted text (collapse
    every run of whitespace to one space, then trim both ends) is
    idempotent: applying it twice equals applying it once, for every
    string. *)
Theorem normalize_ws_idempotent (text : string) :
  normalize_ws (normalize_ws text) = normalize_ws text.
Proof.
  unfold normalize_ws, re_sub_ws.
  rewrite (collapsed_sub_ws (strip (sub_ws false text)) false).
  - apply strip_idem.
  - unfold strip. eapply lstrip_collapsed, rstrip_collapsed, sub_ws_collapsed.
Qed.

End Whitespace.

(** ** WebExtractor *)

Section Web.

Variable web : string -> outcome response.
Variable url : string.

(** Whatever fails inside the [try], the call returns the empty list. *)
Lemma extract_web_failure :
  (forall page, ~ fetched_page (web url) page) ->
  exists e, extract_web_info web url = (Ret [], [ErrorRetrieving url e]).
Proof.
  intros Hno. unfold extract_web_info, call, try_except, extract_web_try.
  unfold bind, lift, return_obj, print.
  destruct (web url) as [[status parsed]|e] eqn:Hweb; cbn; [|eauto].
  destruct status as [[]|e]; cbn; [|eauto].
  destruct parsed as [page|e]; cbn; [|eauto].
  exfalso. apply (Hno page). exists (Response (Ret tt) (Ret page)). auto.
Qed.

(** A fetched and parsed page gives one record and prints nothing. *)
Lemma extract_web_success page :
  fetched_page (web url) page ->
  exists c : citation,
    extract_web_info web url = (Ret [c], [])
    /\ c !! "source_type" = Some (VStr "web")
    /\ c !! "document_title"
       = Some (VStr (match title_tag page with
                     | Some text => Str.strip text
                     | None => url
                     end))
    /\ c !! "page_number" = Some VNone
    /\ c !! "text"
       = Some (VStr (Str.normalize_ws (Str.join " " (stripped_strings page))))
    /\ c !! "url" = Some (VStr url)
    /\ c !! "web_link" = None.
Proof.
  intros (resp & Hweb & Hstatus & Hparsed).
  unfold extract_web_info, call, try_except, extract_web_try.
  unfold bind, lift, return_obj, update.
  rewrite Hweb. cbn. rewrite Hstatus. cbn. rewrite Hparsed. cbn.
  eexists. split; [reflexivity|]. by simplify_map_eq.
Qed.

Lemma fetched_page_dec :
  (exists page, fetched_page (web url) page)
  \/ (forall page, ~ fetched_page (web url) page).
Proof.
  unfold fetched_page.
  destruct (web url) as [[[[]|e] [page|e']]|e].
  - left. exists page. eexists. eauto.
  - right. intros pg (resp & [= <-] & _ & H). discriminate.
  - right. intros pg (resp & [= <-] & H & _). discriminate.
  - right. intros pg (resp & [= <-] & H & _). discriminate.
  - right. intros pg (resp & H & _). discriminate.
Qed.

End Web.

(** C6, as the code has it: for every successfully fetched web page the
    record's document_title is the trimmed text of the page's title
    element whenever a title element is present, also when that text is
    empty, and the input URL only when the page has no title element. *)
Theorem web_title_resolution web url page :
  fetched_page (web url) page ->
  exists c out,
    extract_web_info web url = (Ret [c], out)
    /\ (forall text, title_tag page = Some text ->
          c !! "document_title" = Some (VStr (Str.strip text)))
    /\ (title_tag page = None -> c !! "document_title" = Some (VStr url)).
Proof.
  intros Hpage.
  destruct (extract_web_success web url page Hpage)
    as (c & Hrun & _ & Htitle & _).
  exists c, []. split; [exact Hrun|]. split.
  - intros text Htag. rewrite Htitle, Htag. reflexivity.
  - intros Htag. rewrite Htitle, Htag. reflexivity.
Qed.

Lemma web_title_resolution_witness :
  let web := fun _ : string =>
    Ret (Response (Ret tt) (Ret (Soup (Some " Example ") ["Hello"]))) in
  exists c out,
    extract_web_info web "https://example.com" = (Ret [c], out)
    /\ (forall text, Some " Example " = Some text ->
          c !! "document_title" = Some (VStr (Str.strip text)))
    /\ (Some " Example " = None ->
          c !! "document_title" = Some (VStr "https://example.com")).
Proof.
  intros web.
  apply (web_title_resolution web "https://example.com"
           (Soup (Some " Example ") ["Hello"])).
  exists (Response (Ret tt) (Ret (Soup (Some " Example ") ["Hello"]))).
  repeat split; reflexivity.
Defined.

(** C6 as stated fails: a page whose title element has only whitespace
    is fetched and parsed, and the record's document_title is the empty
    string, not the URL. *)
Lemma web_title_empty_not_url :
  let page := Soup (Some "  ") ["Hello"] in
  let web := fun _ : string => Ret (Response (Ret tt) (Ret page)) in
  let url := "https://example.com" in
  fetched_page (web url) page
  /\ Str.strip "  " = ""
  /\ exists c : citation,
       extract_web_info web url = (Ret [c], [])
       /\ c !! "document_title" = Some (VStr "")
       /\ c !! "document_title" <> Some (VStr url).
Proof.
  intros page web url. split; [|split].
  - exists (Response (Ret tt) (Ret page)). repeat split; reflexivity.
  - reflexivity.
  - eexists. split; [vm_compute; reflexivity|]. split.
    + vm_compute. reflexivity.
    + vm_compute. discriminate.
Qed.

(** C7: for every URL, [extract_web_info] returns (it never raises) a
    list of at most one record: none when the request fails (network
    failure, timeout), when the status is rejected or when the page cannot
    be parsed, and exactly one on success, with source_type web,
    page_number null and url the input URL. *)
Theorem extract_web_info_total web url :
  exists cs out,
    extract_web_info web url = (Ret cs, out)
    /\ (length cs <= 1)%nat
    /\ (forall e, web url = Raise e -> cs = [])
    /\ (forall resp e,
          web url = Ret resp -> raise_for_status resp = Raise e -> cs = [])
    /\ (forall resp e,
          web url = Ret resp -> html_parser resp = Raise e -> cs = [])
    /\ (forall page, fetched_page (web url) page ->
          exists c : citation,
            cs = [c]
            /\ c !! "source_type" = Some (VStr "web")
            /\ c !! "page_number" = Some VNone
            /\ c !! "url" = Some (VStr url)).
Proof.
  destruct (fetched_page_dec web url) as [[page Hpage]|Hno].
  - destruct (extract_web_success web url page Hpage)
      as (c & Hrun & Hsrc & _ & Hnum & _ & Hurl & _).
    exists [c], []. split; [exact Hrun|]. split; [simpl; lia|].
    destruct Hpage as (resp & Hweb & Hstatus & Hparsed).
    repeat split.
    + intros e He. congruence.
    + intros resp' e He Hs. congruence.
    + intros resp' e He Hp. congruence.
    + intros page' (resp' & Hweb' & _ & Hparsed').
      assert (page' = page) as -> by congruence.
      exists c. auto.
  - destruct (extract_web_failure web url Hno) as [e Hrun].
    exists [], [ErrorRetrieving url e]. split; [exact Hrun|].
    split; [simpl; lia|]. repeat split; auto.
    intros page Hpage. destruct (Hno page Hpage).
Qed.

Lemma extract_web_info_total_witness :
  exists cs out,
    extract_web_info (fun _ => Raise TimeoutError) "https://example.com"
    = (Ret cs, out)
    /\ cs = [].
Proof.
  destruct (extract_web_info_total (fun _ => Raise TimeoutError)
              "https://example.com")
    as (cs & out & Hrun & _ & Hfail & _).
  exists cs, out. split; [exact Hrun|]. apply (Hfail TimeoutError). reflexivity.
Defined.

(** ** PdfExtractor *)

Section Pdf.

Variable doc_title : string.
Variable sp_data : option entry.

(** The loop appends the records of the pages it reads and stops at the
    first page that raises; the records appended before stay. *)
Lemma for_pages_emitted ps : forall i cs out,
  exists r,
    for_pages doc_title sp_data i ps (Frame cs out)
    = (r, Frame (cs ++ emitted doc_title sp_data i ps) out).
Proof.
  induction ps as [|[text|e] ps IH]; intros i cs out; cbn [for_pages emitted].
  - exists (Ret tt). unfold ret. by rewrite app_nil_r.
  - unfold bind at 1. unfold extract_page, bind, lift, update. cbn.
    destruct (IH (i + 1) (cs ++ [page_record doc_title sp_data i text]) out)
      as [r Hr].
    exists r. unfold page_record in *. rewrite Hr.
    by rewrite <- app_assoc.
  - exists (Raise e). unfold bind, extract_page, lift. cbn.
    by rewrite app_nil_r.
Qed.

Lemma for_pages_all_read texts : forall i cs out,
  for_pages doc_title sp_data i (Ret <$> texts) (Frame cs out)
  = (Ret tt, Frame (cs ++ emitted doc_title sp_data i (Ret <$> texts)) out).
Proof.
  induction texts as [|text texts IH]; intros i cs out;
    cbn [for_pages emitted fmap list_fmap].
  - unfold ret. by rewrite app_nil_r.
  - unfold bind at 1. unfold extract_page, bind, lift, update. cbn.
    fold (page_record doc_title sp_data i text).
    rewrite IH. by rewrite <- app_assoc.
Qed.

Lemma emitted_all_read_length texts : forall i,
  length (emitted doc_title sp_data i (Ret <$> texts)) = length texts.
Proof.
  induction texts as [|text texts IH]; intros i; cbn; [reflexivity|].
  by rewrite IH.
Qed.

Lemma page_record_fixed_fields i text :
  let c := page_record doc_title sp_data i text in
  c !! "source_type" = Some (VStr "pdf")
  /\ c !! "document_title" = Some (VStr doc_title)
  /\ c !! "page_number" = Some (VInt (i + 1))
  /\ c !! "text" = Some (VStr (Str.normalize_ws (default "" text)))
  /\ c !! "url" = None.
Proof.
  unfold page_record.
  destruct (dict_truthy sp_data && truthy (entry_get "web_link" sp_data));
    by simplify_map_eq.
Qed.

Lemma page_record_web_link i text :
  page_record doc_title sp_data i text !! "web_link"
  = if dict_truthy sp_data && truthy (entry_get "web_link" sp_data)
    then Some (entry_get "web_link" sp_data) else None.
Proof.
  unfold page_record.
  destruct (dict_truthy sp_data && truthy (entry_get "web_link" sp_data));
    by simplify_map_eq.
Qed.

Lemma emitted_page_numbers texts : forall i,
  (fun c : citation => c !! "page_number")
    <$> emitted doc_title sp_data i (Ret <$> texts)
  = (fun n => Some (VInt n)) <$> seqZ (i + 1) (Z.of_nat (length texts)).
Proof.
  induction texts as [|text texts IH]; intros i; [reflexivity|].
  rewrite fmap_cons. cbn [emitted length].
  rewrite seqZ_cons by lia. rewrite !fmap_cons.
  destruct (page_record_fixed_fields i text) as (_ & _ & -> & _).
  f_equal. rewrite IH. do 2 f_equal; lia.
Qed.

Lemma emitted_is_page_record ps : forall i c,
  c ∈ emitted doc_title sp_data i ps ->
  exists j text, c = page_record doc_title sp_data j text.
Proof.
  induction ps as [|[text|e] ps IH]; intros i c Hc; cbn in Hc.
  - by apply elem_of_nil in Hc.
  - apply elem_of_cons in Hc as [->|Hc]; eauto.
  - by apply elem_of_nil in Hc.
Qed.

End Pdf.

(** The call never raises; it returns the records of the pages read
    before the first failure, under the resolved title. *)
Lemma extract_pdf_info_records fs pdf_path (sharepoint_links : registry) :
  let file_name := Str.strip (basename pdf_path) in
  let sp_data := sharepoint_links !! pdf_key pdf_path in
  exists out,
    extract_pdf_info fs pdf_path sharepoint_links
    = (Ret (match fs pdf_path with
            | PdfFile (Ret (PdfReader (Ret meta) (Ret ps))) =>
                emitted (resolve_title sp_data meta file_name) sp_data 0 ps
            | _ => []
            end), out).
Proof.
  intros file_name sp_data.
  unfold extract_pdf_info, call. fold file_name.
  change (Str.lower file_name) with (pdf_key pdf_path). fold sp_data.
  unfold bind at 1.
  set (f0 := (if negb (dict_truthy sp_data)
              then print (DebugNoMapping file_name (pdf_key pdf_path))
              else ret tt) (Frame [] [])).
  assert (exists out0, f0 = (Ret tt, Frame ([] : list citation) out0))
    as [out0 ->].
  { subst f0. destruct (negb (dict_truthy sp_data)); cbn; eauto. }
  unfold bind, try_except, return_obj, extract_pdf_try.
  destruct (fs pdf_path) as [e|[[[meta|e1] [ps|e2]]|e]]; cbn; eauto.
  unfold bind, lift. cbn.
  destruct (for_pages_emitted (resolve_title sp_data meta file_name)
              sp_data ps 0 [] out0) as [r Hr].
  unfold bind in Hr. rewrite Hr. cbn.
  destruct r as [[]|e]; cbn; eauto.
Qed.

(** C4: for every PDF that opens and parses successfully,
    [extract_pdf_info] emits exactly one record per page, and the
    page_number fields of the records, in emission order, are 1, 2, ..., n
    for the page count n. *)
Theorem extract_pdf_info_one_record_per_page
    fs pdf_path (sharepoint_links : registry) meta texts :
  parses (fs pdf_path) meta texts ->
  exists cs out,
    extract_pdf_info fs pdf_path sharepoint_links = (Ret cs, out)
    /\ length cs = length texts
    /\ (fun c : citation => c !! "page_number") <$> cs
       = (fun n => Some (VInt n)) <$> seqZ 1 (Z.of_nat (length texts)).
Proof.
  intros Hfile.
  destruct (extract_pdf_info_records fs pdf_path sharepoint_links)
    as [out Hrun].
  rewrite Hfile in Hrun. eexists _, out. split; [exact Hrun|]. split.
  - apply emitted_all_read_length.
  - apply (emitted_page_numbers _ _ texts 0).
Qed.

Lemma extract_pdf_info_one_record_per_page_witness :
  let fs := fun _ : string =>
    PdfFile (Ret (PdfReader (Ret None)
                    (Ret (Ret <$> [Some "one"; None; Some " three "])))) in
  exists cs out,
    extract_pdf_info fs "PDFs/report.pdf" ∅ = (Ret cs, out)
    /\ length cs = 3%nat
    /\ (fun c : citation => c !! "page_number") <$> cs
       = [Some (VInt 1); Some (VInt 2); Some (VInt 3)].
Proof.
  intros fs.
  apply (extract_pdf_info_one_record_per_page fs "PDFs/report.pdf" ∅ None
           [Some "one"; None; Some " three "]).
  reflexivity.
Defined.

(** The test of line 93 holds exactly when the registry entry exists and
    has a non-empty web_link. *)
Lemma web_link_condition (sp_data : option entry) :
  dict_truthy sp_data && truthy (entry_get "web_link" sp_data) = true
  <-> exists e w, sp_data = Some e /\ e !! "web_link" = Some w /\ w <> "".
Proof.
  split.
  - intros [_ Hlink]%andb_prop. destruct sp_data as [e|]; [|discriminate].
    cbn in Hlink. destruct (e !! "web_link") as [w|] eqn:Hw; [|discriminate].
    exists e, w. repeat split; auto.
    cbn in Hlink. apply String.eqb_neq. by destruct (String.eqb w "").
  - intros (e & w & -> & Hw & Hne). apply andb_true_intro. split.
    + cbn. apply negb_true_iff, Nat.eqb_neq. intros Hsize.
      apply map_size_empty_inv in Hsize. subst e. by rewrite lookup_empty in Hw.
    + cbn. rewrite Hw. cbn. apply negb_true_iff. by apply String.eqb_neq.
Qed.

(** C5: an emitted record carries a web_link field if and only if the
    registry has an entry for the PDF's trimmed, lower-cased base name and
    that entry's web_link is non-empty; the field is then the registry's
    web_link, on every record of the PDF, and for a PDF with no registry
    match no record carries web_link. *)
Theorem web_link_iff_registry
    fs pdf_path (sharepoint_links : registry) cs out (c : citation) :
  extract_pdf_info fs pdf_path sharepoint_links = (Ret cs, out) ->
  c ∈ cs ->
  (is_Some (c !! "web_link")
   <-> exists e w, sharepoint_links !! pdf_key pdf_path = Some e
                   /\ e !! "web_link" = Some w /\ w <> "")
  /\ (forall e w, sharepoint_links !! pdf_key pdf_path = Some e ->
        e !! "web_link" = Some w -> w <> "" ->
        c !! "web_link" = Some (VStr w))
  /\ (sharepoint_links !! pdf_key pdf_path = None -> c !! "web_link" = None).
Proof.
  intros Hrun Hc.
  destruct (extract_pdf_info_records fs pdf_path sharepoint_links)
    as [out' Hrec].
  rewrite Hrun in Hrec. injection Hrec as -> _.
  assert (exists t j text,
            c = page_record t (sharepoint_links !! pdf_key pdf_path) j text)
    as (t & j & text & ->).
  { destruct (fs pdf_path) as [e|[[[meta|e1] [ps|e2]]|e]];
      try by apply elem_of_nil in Hc.
    apply emitted_is_page_record in Hc as (j & text & ->). eauto. }
  rewrite page_record_web_link.
  pose proof (web_link_condition (sharepoint_links !! pdf_key pdf_path))
    as Hcond.
  destruct (dict_truthy _ && truthy _) eqn:Htest.
  - destruct (proj1 Hcond eq_refl) as (e & w & He & Hw & Hne).
    split; [|split].
    + split; eauto.
    + intros e' w' He' Hw' _. rewrite He'. cbn. by rewrite Hw'.
    + intros Hnone. congruence.
  - split; [|split]; auto.
    + split; [by intros [? ?]|]. intros H. apply Hcond in H. discriminate.
    + intros e w He Hw Hne.
      assert (false = true); [|discriminate]. apply Hcond. eauto.
Qed.

Lemma web_link_iff_registry_witness :
  let fs := fun _ : string =>
    PdfFile (Ret (PdfReader (Ret None) (Ret [Ret (Some "one"); Ret None]))) in
  let reg : registry :=
    {[ "report.pdf" := {[ "title" := "Annual Report";
                          "web_link" := "https://x/report" ]} ]} in
  let c := page_record "Annual Report" (reg !! "report.pdf") 1 None in
  (is_Some (c !! "web_link")
   <-> exists e w, reg !! pdf_key "PDFs/Report.PDF" = Some e
                   /\ e !! "web_link" = Some w /\ w <> "")
  /\ (forall e w, reg !! pdf_key "PDFs/Report.PDF" = Some e ->
        e !! "web_link" = Some w -> w <> "" ->
        c !! "web_link" = Some (VStr w))
  /\ (reg !! pdf_key "PDFs/Report.PDF" = None -> c !! "web_link" = None).
Proof.
  intros fs reg c.
  apply (web_link_iff_registry fs "PDFs/Report.PDF" reg
           [page_record "Annual Report" (reg !! "report.pdf") 0 (Some "one"); c]
           []).
  - vm_compute. reflexivity.
  - apply elem_of_cons. right. apply elem_of_cons. left. reflexivity.
Defined.

(** ** The record invariant *)

Lemma pdf_record_shape fs pdf_path (sharepoint_links : registry) cs out
    (c : citation) :
  extract_pdf_info fs pdf_path sharepoint_links = (Ret cs, out) ->
  c ∈ cs ->
  exists t n text,
    c !! "source_type" = Some (VStr "pdf")
    /\ c !! "document_title" = Some (VStr t)
    /\ c !! "page_number" = Some (VInt n)
    /\ c !! "text" = Some (VStr text)
    /\ c !! "url" = None.
Proof.
  intros Hrun Hc.
  destruct (extract_pdf_info_records fs pdf_path sharepoint_links)
    as [out' Hrec].
  rewrite Hrun in Hrec. injection Hrec as -> _.
  destruct (fs pdf_path) as [e|[[[meta|e1] [ps|e2]]|e]];
    try by apply elem_of_nil in Hc.
  apply emitted_is_page_record in Hc as (j & text & ->).
  destruct (page_record_fixed_fields
              (resolve_title (sharepoint_links !! pdf_key pdf_path) meta
                 (Str.strip (basename pdf_path)))
              (sharepoint_links !! pdf_key pdf_path) j text)
    as (? & ? & ? & ? & ?).
  eauto 10.
Qed.

Lemma web_record_shape web url cs out (c : citation) :
  extract_web_info web url = (Ret cs, out) ->
  c ∈ cs ->
  exists t text,
    c !! "source_type" = Some (VStr "web")
    /\ c !! "document_title" = Some (VStr t)
    /\ c !! "page_number" = Some VNone
    /\ c !! "text" = Some (VStr text)
    /\ c !! "url" = Some (VStr url).
Proof.
  intros Hrun Hc.
  destruct (fetched_page_dec web url) as [[page Hpage]|Hno].
  - destruct (extract_web_success web url page Hpage)
      as (c' & Hrun' & ? & ? & ? & ? & ? & _).
    rewrite Hrun in Hrun'. injection Hrun' as -> _.
    apply list_elem_of_singleton in Hc as ->. eauto 10.
  - destruct (extract_web_failure web url Hno) as [e Hrun'].
    rewrite Hrun in Hrun'. injection Hrun' as -> _.
    by apply elem_of_nil in Hc.
Qed.

(** C8: every record emitted by either extractor has non-null
    source_type, document_title and text; it carries a page_number if and
    only if its source_type is pdf, and a url if and only if its
    source_type is web.  A field is carried when it has a value other than
    null: the web record holds the key page_number with the value null. *)
Theorem record_invariant (c : citation) :
  (exists fs pdf_path (sharepoint_links : registry) cs out,
     extract_pdf_info fs pdf_path sharepoint_links = (Ret cs, out) /\ c ∈ cs)
  \/ (exists web url cs out,
        extract_web_info web url = (Ret cs, out) /\ c ∈ cs) ->
  present "source_type" c
  /\ present "document_title" c
  /\ present "text" c
  /\ (present "page_number" c <-> c !! "source_type" = Some (VStr "pdf"))
  /\ (present "url" c <-> c !! "source_type" = Some (VStr "web")).
Proof.
  unfold present.
  intros [(fs & p & reg & cs & out & Hrun & Hc)
         |(web & url & cs & out & Hrun & Hc)].
  - destruct (pdf_record_shape fs p reg cs out c Hrun Hc)
      as (t & n & text & Hsrc & Htitle & Hnum & Htext & Hurl).
    rewrite Hsrc, Htitle, Hnum, Htext, Hurl.
    repeat split; eauto; try (intros; discriminate).
    + intros (v & Hv & _). discriminate.
  - destruct (web_record_shape web url cs out c Hrun Hc)
      as (t & text & Hsrc & Htitle & Hnum & Htext & Hurl).
    rewrite Hsrc, Htitle, Hnum, Htext, Hurl.
    repeat split; eauto; try (intros; discriminate).
    + intros (v & [= <-] & Hv). by destruct Hv.
Qed.

Lemma record_invariant_witness :
  let c : citation :=
    {[ "source_type" := VStr "web"; "document_title" := VStr "Example";
       "page_number" := VNone; "text" := VStr "Hello";
       "url" := VStr "https://example.com" ]} in
  present "source_type" c
  /\ present "document_title" c
  /\ present "text" c
  /\ (present "page_number" c <-> c !! "source_type" = Some (VStr "pdf"))
  /\ (present "url" c <-> c !! "source_type" = Some (VStr "web")).
Proof.
  intros c. apply (record_invariant c). right.
  exists (fun _ => Ret (Response (Ret tt)
                          (Ret (Soup (Some "Example") ["Hello"])))).
  exists "https://example.com", [c], [].
  split; [vm_compute; reflexivity|]. apply elem_of_cons. left. reflexivity.
Defined.

(** ** Title resolution of the PDF extractor *)

Lemma dict_truthy_lookup {A} (e : gmap string A) key x :
  e !! key = Some x -> dict_truthy (Some e) = true.
Proof.
  intros Hx. cbn. apply negb_true_iff, Nat.eqb_neq. intros Hsize.
  apply map_size_empty_inv in Hsize. subst e. by rewrite lookup_empty in Hx.
Qed.

(** A registry entry with a title key overrides with that title, whatever
    the title is. *)
Lemma resolve_title_registry (e : entry) t meta file_name :
  e !! "title" = Some t -> resolve_title (Some e) meta file_name = t.
Proof.
  intros Ht. unfold resolve_title.
  rewrite (dict_truthy_lookup e "title" t Ht). by rewrite Ht.
Qed.

Lemma resolve_title_no_entry meta file_name :
  resolve_title None meta file_name = metadata_title meta file_name.
Proof. reflexivity. Qed.

Lemma metadata_title_present (info : gmap string string) t file_name :
  info !! "/Title" = Some t -> t <> "" ->
  metadata_title (Some info) file_name = t.
Proof.
  intros Ht Hne. unfold metadata_title.
  rewrite (dict_truthy_lookup info "/Title" t Ht). cbn. rewrite Ht. cbn.
  apply String.eqb_neq in Hne. by rewrite Hne.
Qed.

Lemma metadata_title_fallback meta file_name :
  (forall info t, meta = Some info -> info !! "/Title" = Some t -> t = "") ->
  metadata_title meta file_name = (splitext file_name).1.
Proof.
  intros Hno. unfold metadata_title.
  destruct (dict_truthy meta && truthy (entry_get "/Title" meta)) eqn:Htest;
    [|reflexivity].
  apply andb_prop in Htest as [_ Htitle].
  destruct meta as [info|]; [|discriminate]. cbn in *.
  destruct (info !! "/Title") as [t|] eqn:Ht; [|discriminate].
  rewrite (Hno info t eq_refl Ht) in Htitle. discriminate.
Qed.

(** C1 at a registry entry whose title is empty: the registry is loaded
    from a file whose row for [a.pdf] has a blank Title field, the PDF
    carries the metadata title [Meta], and the record's document_title is
    the empty string, neither [Meta] nor the file name. *)
Theorem registry_empty_title_overrides :
  let csv := fun _ : string =>
    CsvFile [Row ["Document Name"; "Title"; "Web Link"];
             Row ["a.pdf"; ""; "https://x/a"]] in
  let pdfs := fun _ : string =>
    PdfFile (Ret (PdfReader (Ret (Some {[ "/Title" := "Meta" ]}))
                    (Ret [Ret (Some "text")]))) in
  exists (reg : registry) (c : citation),
    (load_sharepoint_links csv "urls.csv").1 = Ret reg
    /\ reg !! pdf_key "PDFs/a.pdf"
       = Some {[ "title" := ""; "web_link" := "https://x/a" ]}
    /\ (extract_pdf_info pdfs "PDFs/a.pdf" reg).1 = Ret [c]
    /\ c !! "document_title" = Some (VStr "")
    /\ metadata_title (Some {[ "/Title" := "Meta" ]}) "a.pdf" = "Meta".
Proof.
  intros csv pdfs. eexists _, _.
  split; [vm_compute; reflexivity|].
  split; [vm_compute; reflexivity|].
  split; [vm_compute; reflexivity|].
  split; vm_compute; reflexivity.
Qed.

(** ** LinkRegistry *)

Lemma setitem_fresh {K V} `{EqDecision K} (k : K) (v : V) (d : odict K V) :
  k ∉ d.*1 -> setitem k v d = d ++ [(k, v)].
Proof.
  induction d as [|[k' v'] d IH]; cbn; [reflexivity|].
  intros Hk. apply not_elem_of_cons in Hk as [Hne Hk].
  destruct (decide (k = k')); [contradiction|]. by rewrite IH.
Qed.

(** With distinct column names the dictionary of a row lists the columns
    in order, each with its field. *)
Lemma dict_zip_from fieldnames : forall row (d0 : odict (option string) value),
  NoDup fieldnames ->
  (forall h, h ∈ fieldnames -> Some h ∉ d0.*1) ->
  foldl (fun d kv => setitem (Some kv.1) (VStr kv.2) d) d0
        (zip fieldnames row)
  = d0 ++ ((fun kv => (Some kv.1, VStr kv.2)) <$> zip fieldnames row).
Proof.
  induction fieldnames as [|h fieldnames IH]; intros [|x row] d0 Hnd Hfresh;
    cbn; try by rewrite app_nil_r.
  apply NoDup_cons in Hnd as [Hh Hnd].
  rewrite setitem_fresh by (apply Hfresh; left).
  rewrite IH; [by rewrite <- app_assoc|exact Hnd|].
  intros h' Hh'. rewrite fmap_app. cbn.
  apply not_elem_of_app. split; [apply Hfresh; by right|].
  apply not_elem_of_cons. split; [|apply not_elem_of_nil].
  intros [= ->]. contradiction.
Qed.

Lemma field_absent name fieldnames : forall row,
  name ∉ Str.strip <$> fieldnames -> field name fieldnames row = None.
Proof.
  induction fieldnames as [|h fieldnames IH]; intros [|x row] Hname;
    cbn; try reflexivity.
  rewrite fmap_cons in Hname. apply not_elem_of_cons in Hname as [Hne Hname].
  destruct (decide (Str.strip h = name)); [congruence|]. by apply IH.
Qed.

Lemma strip_keys_columns name fieldnames : forall row acc,
  NoDup (Str.strip <$> fieldnames) ->
  foldl (fun (acc : gmap string value) (kv : option string * value) =>
           match kv.1 with
           | Some key => <[Str.strip key := kv.2]> acc
           | None => acc
           end) acc
        ((fun kv => (Some kv.1, VStr kv.2)) <$> zip fieldnames row) !! name
  = match field name fieldnames row with
    | Some x => Some (VStr x)
    | None => acc !! name
    end.
Proof.
  induction fieldnames as [|h fieldnames IH]; intros [|x row] acc Hnd;
    cbn; try reflexivity.
  rewrite fmap_cons in Hnd. apply NoDup_cons in Hnd as [Hh Hnd].
  rewrite IH by exact Hnd.
  destruct (decide (Str.strip h = name)) as [<-|Hne].
  - rewrite field_absent by exact Hh. apply lookup_insert_eq.
  - destruct (field name fieldnames row); [reflexivity|].
    by apply lookup_insert_ne.
Qed.

Section Rows.

Variable fieldnames : list string.
Hypothesis Hheader : well_formed_header fieldnames.

(** What line 28 makes of a complete row: under each column name,
    stripped, the field of that column. *)
Lemma strip_keys_complete_row row name :
  complete_row fieldnames row ->
  strip_keys (DictReader_next fieldnames row) !! name
  = VStr <$> field name fieldnames row.
Proof.
  intros Hlen. unfold complete_row in Hlen.
  unfold strip_keys, DictReader_next, dict_zip.
  rewrite dict_zip_from;
    [|by eapply NoDup_fmap_1|intros h _; apply not_elem_of_nil].
  rewrite app_nil_l.
  assert ((length row <? length fieldnames)%nat = false) as Hge
    by (apply Nat.ltb_ge; lia).
  destruct (length fieldnames <? length row)%nat.
  - rewrite setitem_fresh.
    + rewrite foldl_app. cbn.
      rewrite strip_keys_columns by exact Hheader.
      rewrite lookup_empty. by destruct (field name fieldnames row).
    + intros Hin. apply list_elem_of_fmap in Hin as ([k v] & Hk & Hin).
      apply list_elem_of_fmap in Hin as ([h x] & [= -> ->] & _). discriminate.
  - rewrite Hge. rewrite strip_keys_columns by exact Hheader.
    rewrite lookup_empty. by destruct (field name fieldnames row).
Qed.

(** A complete row with a document name stores its entry under its key
    and prints nothing. *)
Lemma load_row_stores row (m : registry) out :
  complete_row fieldnames row ->
  has_document_name fieldnames row ->
  load_row (DictReader_next fieldnames row) (Frame m out)
  = (Ret tt, Frame (store_row fieldnames m row) out).
Proof.
  intros Hlen (s & Hs & Hne).
  unfold load_row, get, get_default, store_row, row_key, row_entry.
  rewrite !strip_keys_complete_row by exact Hlen.
  rewrite Hs. cbn.
  apply String.eqb_neq in Hne. rewrite Hne. cbn.
  unfold bind, ret. cbn.
  destruct (field "Title" fieldnames row);
    destruct (field "Web Link" fieldnames row); reflexivity.
Qed.

Lemma for_rows_stores rows : forall (m : registry) out,
  Forall (complete_row fieldnames) rows ->
  Forall (has_document_name fieldnames) rows ->
  for_rows fieldnames (Row <$> rows) (Frame m out)
  = (Ret tt, Frame (foldl (store_row fieldnames) m rows) out).
Proof.
  induction rows as [|row rows IH]; intros m out Hlen Hdoc; [reflexivity|].
  apply Forall_cons in Hlen as [Hlen Hlens].
  apply Forall_cons in Hdoc as [Hdoc Hdocs].
  rewrite fmap_cons. cbn [for_rows foldl].
  destruct row as [|x row].
  { destruct Hdoc as (s & Hs & _). by destruct fieldnames. }
  unfold bind. rewrite load_row_stores by assumption. by apply IH.
Qed.

End Rows.

Section Stored.

Variable fieldnames : list string.

Local Abbreviation key := (row_key fieldnames).
Local Abbreviation store := (store_row fieldnames).

Lemma foldl_store_other rows : forall (m : registry) k,
  (forall r, r ∈ rows -> key r <> k) ->
  foldl store m rows !! k = m !! k.
Proof.
  induction rows as [|row rows IH]; intros m k Hk; [reflexivity|].
  cbn. rewrite IH by (intros r Hr; apply Hk; by right).
  unfold store_row. apply lookup_insert_ne. apply Hk. by left.
Qed.

(** The last row of a key decides its entry. *)
Lemma foldl_store_last pre row post (m : registry) :
  (forall r, r ∈ post -> key r <> key row) ->
  foldl store m (pre ++ row :: post) !! key row
  = Some (row_entry fieldnames row).
Proof.
  intros Hpost. rewrite foldl_app. cbn.
  rewrite foldl_store_other by exact Hpost.
  unfold store_row. apply lookup_insert_eq.
Qed.

Lemma foldl_store_size_le rows : forall (m : registry),
  (size (foldl store m rows) <= size m + length rows)%nat.
Proof.
  induction rows as [|row rows IH]; intros m; cbn; [lia|].
  etrans; [apply IH|]. unfold store_row.
  destruct (m !! key row) eqn:Hm.
  - rewrite map_size_insert_Some by eauto. lia.
  - rewrite map_size_insert_None by exact Hm. lia.
Qed.

Lemma foldl_store_size rows : forall (m : registry),
  NoDup (key <$> rows) ->
  (forall r, r ∈ rows -> m !! key r = None) ->
  size (foldl store m rows) = (size m + length rows)%nat.
Proof.
  induction rows as [|row rows IH]; intros m Hnd Hfresh; cbn; [lia|].
  rewrite fmap_cons in Hnd. apply NoDup_cons in Hnd as [Hrow Hnd].
  rewrite IH.
  - unfold store_row. rewrite map_size_insert_None; [lia|].
    apply Hfresh. by left.
  - exact Hnd.
  - intros r Hr. unfold store_row. rewrite lookup_insert_ne.
    + apply Hfresh. by right.
    + intros Heq. apply Hrow. rewrite Heq. by apply list_elem_of_fmap_2.
Qed.

Lemma foldl_store_kept rows : forall (m : registry) k,
  is_Some (m !! k) -> is_Some (foldl store m rows !! k).
Proof.
  induction rows as [|row rows IH]; intros m k Hk; [exact Hk|].
  cbn. apply IH. unfold store_row.
  destruct (decide (key row = k)) as [->|Hne].
  - rewrite lookup_insert_eq. eauto.
  - by rewrite lookup_insert_ne.
Qed.

(** A key that comes twice costs an entry. *)
Lemma foldl_store_size_dup pre r1 mid r2 post :
  key r1 = key r2 ->
  (size (foldl store ∅ (pre ++ r1 :: mid ++ r2 :: post))
   < length (pre ++ r1 :: mid ++ r2 :: post))%nat.
Proof.
  intros Hkey.
  replace (pre ++ r1 :: mid ++ r2 :: post)
    with ((pre ++ r1 :: mid) ++ r2 :: post)
    by (by rewrite <- app_assoc).
  rewrite foldl_app. cbn [foldl].
  set (m1 := foldl store ∅ (pre ++ r1 :: mid)).
  assert (is_Some (m1 !! key r2)) as Hin.
  { subst m1. rewrite foldl_app. cbn [foldl]. apply foldl_store_kept.
    rewrite <- Hkey. unfold store_row. rewrite lookup_insert_eq. eauto. }
  assert (size m1 <= length (pre ++ r1 :: mid))%nat as Hm1.
  { subst m1. etrans; [apply foldl_store_size_le|].
    rewrite map_size_empty. lia. }
  eapply Nat.le_lt_trans; [apply foldl_store_size_le|].
  unfold store_row at 1. rewrite map_size_insert_Some by exact Hin.
  rewrite (length_app (pre ++ r1 :: mid)). cbn [length]. lia.
Qed.

(** A key of the mapping has one item in its list of items. *)
Lemma one_item_per_key (m : registry) k e :
  m !! k = Some e ->
  length (filter (fun kv => kv.1 = k) (map_to_list m)) = 1%nat.
Proof.
  intros Hk.
  rewrite <- (insert_delete_id m k e Hk).
  rewrite map_to_list_insert by apply lookup_delete_eq.
  rewrite filter_cons_True by reflexivity. cbn. f_equal.
  destruct (filter _ (map_to_list (delete k m))) as [|[k' e'] l] eqn:Hf;
    [reflexivity|].
  assert ((k', e') ∈ filter (fun kv : string * entry => kv.1 = k)
                            (map_to_list (delete k m))) as Hin
    by (rewrite Hf; left).
  apply list_elem_of_filter in Hin as [Hk' Hin]. cbn in Hk'. subst k'.
  apply elem_of_map_to_list in Hin. by rewrite lookup_delete_eq in Hin.
Qed.

End Stored.

Ltac by_decide := apply (bool_decide_unpack _); vm_compute; exact I.

(** The mapping returned is the one the [try] had built when it ended,
    normally or not. *)
Lemma load_returns_built fs csv_path r f :
  load_try (fs csv_path) (Frame ∅ []) = (r, f) ->
  load_sharepoint_links fs csv_path
  = (Ret (obj f),
     match r with
     | Ret _ => stdout f
     | Raise e => stdout f ++ [ErrorLoading csv_path e]
     end).
Proof.
  intros Htry. unfold load_sharepoint_links, call, bind, try_except.
  rewrite Htry. by destruct r as [[]|e].
Qed.

(** A well-formed source loads without an error, row after row. *)
Lemma load_well_formed fs csv_path fieldnames rows :
  fs csv_path = CsvFile (Row fieldnames :: (Row <$> rows)) ->
  well_formed_header fieldnames ->
  Forall (complete_row fieldnames) rows ->
  Forall (has_document_name fieldnames) rows ->
  load_sharepoint_links fs csv_path
  = (Ret (foldl (store_row fieldnames) ∅ rows),
     [DebugHeaders (Some fieldnames)]).
Proof.
  intros Hfs Hheader Hlen Hdoc.
  erewrite load_returns_built.
  2:{ rewrite Hfs. cbn [load_try]. unfold bind, print. cbn.
      apply for_rows_stores; assumption. }
  reflexivity.
Qed.

(** What follows the record at which the reader raises is never read. *)
Lemma for_rows_reader_raises fieldnames e rest recs : forall f,
  for_rows fieldnames (recs ++ ReaderRaises e :: rest) f
  = match for_rows fieldnames recs f with
    | (Ret _, f') => (Raise e, f')
    | (Raise e', f') => (Raise e', f')
    end.
Proof.
  induction recs as [|[[|x r]|e'] recs IH]; intros f; cbn [app for_rows].
  - reflexivity.
  - apply IH.
  - unfold bind. destruct (load_row _ f) as [[[]|e'] f']; [apply IH|reflexivity].
  - reflexivity.
Qed.

(** C2, as the code has it: for every registry source, [load] never
    raises; when an error occurs during the load the returned mapping is
    the one built up to the error: empty when the file cannot be opened or
    the header cannot be read, and otherwise holding what the records
    before the error stored. *)
Theorem load_never_raises fs csv_path :
  (exists m out, load_sharepoint_links fs csv_path = (Ret m, out))
  /\ (forall e f,
        load_try (fs csv_path) (Frame ∅ []) = (Raise e, f) ->
        load_sharepoint_links fs csv_path
        = (Ret (obj f), stdout f ++ [ErrorLoading csv_path e]))
  /\ (forall e,
        fs csv_path = OpenRaises e ->
        load_sharepoint_links fs csv_path
        = (Ret ∅, [ErrorLoading csv_path e]))
  /\ (forall e rest,
        fs csv_path = CsvFile (ReaderRaises e :: rest) ->
        load_sharepoint_links fs csv_path
        = (Ret ∅, [ErrorLoading csv_path e]))
  /\ (forall fieldnames recs e rest,
        fs csv_path
        = CsvFile (Row fieldnames :: recs ++ ReaderRaises e :: rest) ->
        (load_sharepoint_links fs csv_path).1
        = (load_sharepoint_links
             (fun _ => CsvFile (Row fieldnames :: recs)) csv_path).1).
Proof.
  split; [|split; [|split; [|split]]].
  - destruct (load_try (fs csv_path) (Frame ∅ [])) as [r f] eqn:Htry.
    rewrite (load_returns_built fs csv_path r f Htry). eauto.
  - intros e f Htry. by rewrite (load_returns_built fs csv_path _ f Htry).
  - intros e Hfs. erewrite load_returns_built by (rewrite Hfs; reflexivity).
    reflexivity.
  - intros e rest Hfs.
    erewrite load_returns_built by (rewrite Hfs; reflexivity). reflexivity.
  - intros fieldnames recs e rest Hfs.
    destruct (for_rows fieldnames recs
                (Frame ∅ [DebugHeaders (Some fieldnames)]))
      as [r f] eqn:Hrows.
    assert (exists r', load_try (fs csv_path) (Frame ∅ []) = (r', f))
      as [r' Hfull].
    { rewrite Hfs. cbn [load_try]. unfold bind, print. cbn.
      rewrite for_rows_reader_raises, Hrows. destruct r; eauto. }
    rewrite (load_returns_built fs csv_path r' f Hfull).
    rewrite (load_returns_built
               (fun _ => CsvFile (Row fieldnames :: recs)) csv_path r f).
    + reflexivity.
    + cbn [load_try]. unfold bind, print. cbn. exact Hrows.
Qed.

Lemma load_never_raises_witness :
  load_sharepoint_links (fun _ => OpenRaises FileNotFoundError) "urls.csv"
  = (Ret ∅, [ErrorLoading "urls.csv" FileNotFoundError]).
Proof.
  apply (load_never_raises (fun _ => OpenRaises FileNotFoundError) "urls.csv").
  reflexivity.
Defined.

(** C2 as stated fails: the second row has no Title field, [None.strip()]
    raises inside the [try], and the mapping returned still holds the
    entry of the first row. *)
Lemma load_error_keeps_rows :
  let fs := fun _ : string =>
    CsvFile [Row ["Document Name"; "Title"; "Web Link"];
             Row ["a.pdf"; "A"; "https://x/a"];
             Row ["b.pdf"]] in
  load_failed fs "urls.csv"
  /\ exists (m : registry) out,
       load_sharepoint_links fs "urls.csv" = (Ret m, out)
       /\ m !! "a.pdf" = Some {[ "title" := "A"; "web_link" := "https://x/a" ]}
       /\ m <> ∅.
Proof.
  intros fs. split.
  - eexists _, _. vm_compute. reflexivity.
  - eexists _, _. split; [vm_compute; reflexivity|]. split.
    + vm_compute. reflexivity.
    + intros Hm. apply (f_equal size) in Hm. vm_compute in Hm. discriminate.
Qed.

(** C3, as the code has it: for a source with a well-formed header whose
    rows are complete, have a non-empty document-name field and have
    pairwise distinct document names after trimming and lower-casing,
    [load] returns a mapping with exactly one entry per row, each under
    the row's document name trimmed and lower-cased, with the title and
    web_link trimmed. *)
Theorem load_one_entry_per_row fs csv_path fieldnames rows :
  fs csv_path = CsvFile (Row fieldnames :: (Row <$> rows)) ->
  well_formed_header fieldnames ->
  Forall (complete_row fieldnames) rows ->
  Forall (has_document_name fieldnames) rows ->
  NoDup (row_key fieldnames <$> rows) ->
  exists (m : registry) out,
    load_sharepoint_links fs csv_path = (Ret m, out)
    /\ size m = length rows
    /\ forall row, row ∈ rows ->
         m !! row_key fieldnames row = Some (row_entry fieldnames row).
Proof.
  intros Hfs Hheader Hlen Hdoc Hnd.
  eexists _, _. split; [by apply load_well_formed|]. split.
  - rewrite foldl_store_size; [by rewrite map_size_empty|exact Hnd|].
    intros r _. apply lookup_empty.
  - intros row Hrow.
    apply list_elem_of_split in Hrow as (pre & post & ->).
    apply foldl_store_last. intros r Hr Heq.
    rewrite fmap_app, fmap_cons in Hnd.
    apply NoDup_app in Hnd as (_ & _ & Hnd).
    apply NoDup_cons in Hnd as [Hnotin _]. apply Hnotin.
    rewrite <- Heq. by apply list_elem_of_fmap_2.
Qed.

Lemma load_one_entry_per_row_witness :
  let fieldnames := ["Document Name"; " Title"; "Web Link "] in
  let rows := [["Report.PDF "; " Annual Report "; "https://x/report"];
               ["b.pdf"; "B"; ""; "surplus"]] in
  let fs := fun _ : string => CsvFile (Row fieldnames :: (Row <$> rows)) in
  exists (m : registry) out,
    load_sharepoint_links fs "urls.csv" = (Ret m, out)
    /\ size m = 2%nat
    /\ forall row, row ∈ rows ->
         m !! row_key fieldnames row = Some (row_entry fieldnames row).
Proof.
  intros fieldnames rows fs.
  apply (load_one_entry_per_row fs "urls.csv" fieldnames rows).
  - reflexivity.
  - unfold well_formed_header. by_decide.
  - repeat constructor; unfold complete_row; cbn; lia.
  - repeat constructor; (eexists; split; [vm_compute; reflexivity|discriminate]).
  - by_decide.
Defined.

(** C3 as stated fails: two complete rows with the same document name up
    to case and blanks give one entry, not two, and the entry is not the
    first row's. *)
Lemma load_duplicate_rows_one_entry :
  let fieldnames := ["Document Name"; "Title"; "Web Link"] in
  let rows := [["a.pdf"; "A"; "https://x/a"];
               [" A.PDF"; "B"; "https://x/b"]] in
  let fs := fun _ : string => CsvFile (Row fieldnames :: (Row <$> rows)) in
  well_formed_header fieldnames
  /\ Forall (complete_row fieldnames) rows
  /\ Forall (has_document_name fieldnames) rows
  /\ exists (m : registry) out,
       load_sharepoint_links fs "urls.csv" = (Ret m, out)
       /\ size m = 1%nat
       /\ length rows = 2%nat
       /\ m !! row_key fieldnames ["a.pdf"; "A"; "https://x/a"]
          <> Some (row_entry fieldnames ["a.pdf"; "A"; "https://x/a"]).
Proof.
  intros fieldnames rows fs. split; [|split; [|split]].
  - unfold well_formed_header. by_decide.
  - repeat constructor; unfold complete_row; cbn; lia.
  - repeat constructor; (eexists; split; [vm_compute; reflexivity|discriminate]).
  - eexists _, _. split; [vm_compute; reflexivity|].
    split; [vm_compute; reflexivity|]. split; [reflexivity|].
    intros Heq. apply (f_equal (fun o => o ≫= (.!! "title"))) in Heq.
    vm_compute in Heq. discriminate.
Qed.

(** * Further properties of the code *)

(** ** Trimming and whitespace *)

Section Trimming.

Import Str.

Lemma lstrip_rstrip_comm s : lstrip (rstrip s) = rstrip (lstrip s).
Proof.
  induction s as [|c s IH]; [reflexivity|].
  cbn [lstrip rstrip]. destruct (isspace c) eqn:Hc.
  - destruct (rstrip s) as [|c' r] eqn:Hr.
    + rewrite <- IH. reflexivity.
    + rewrite <- IH. cbn [lstrip]. by rewrite Hc.
  - cbn [rstrip]. rewrite Hc.
    destruct (rstrip s) as [|c' r]; cbn [lstrip]; by rewrite Hc.
Qed.

(** X1: [strip] removes the whitespace of both ends whichever end is
    trimmed first, and trimming a trimmed string changes nothing. *)
Theorem strip_two_ends s :
  strip s = rstrip (lstrip s)
  /\ lstrip (strip s) = strip s
  /\ rstrip (strip s) = strip s.
Proof.
  unfold strip. split; [apply lstrip_rstrip_comm|]. split.
  - apply lstrip_idem.
  - rewrite lstrip_rstrip_comm. apply rstrip_idem.
Qed.

Lemma normalize_ws_cleaned text : clean (normalize_ws text).
Proof.
  unfold clean, normalize_ws, re_sub_ws. split.
  - unfold strip. eapply lstrip_collapsed, rstrip_collapsed, sub_ws_collapsed.
  - unfold strip. split; [apply lstrip_idem|].
    rewrite lstrip_rstrip_comm. apply rstrip_idem.
Qed.

(** A clean text is left as it is. *)
Lemma clean_fixed s : clean s -> normalize_ws s = s.
Proof.
  intros (Hc & Hl & Hr). unfold normalize_ws, re_sub_ws, strip.
  rewrite (collapsed_sub_ws s false Hc). by rewrite Hr.
Qed.

(** X2: the normalised text is clean (its only whitespace characters are
    spaces, no two of them are adjacent, and it neither starts nor ends
    with one), and the clean texts are exactly those the normalisation
    leaves unchanged. *)
Theorem normalize_ws_clean text :
  clean (normalize_ws text)
  /\ (clean text <-> normalize_ws text = text).
Proof.
  split; [apply normalize_ws_cleaned|]. split.
  - apply clean_fixed.
  - intros Hfixed. rewrite <- Hfixed. apply normalize_ws_cleaned.
Qed.

Lemma chars_sub_ws s : forall b,
  filter (fun c => isspace c = false) (chars (sub_ws b s))
  = filter (fun c => isspace c = false) (chars s).
Proof.
  induction s as [|c s IH]; intros b; [reflexivity|].
  cbn [sub_ws chars]. destruct (isspace c) eqn:Hc.
  - rewrite (filter_cons_False _ c) by (by rewrite Hc).
    destruct b; [apply IH|]. cbn [chars].
    rewrite filter_cons_False by (by rewrite isspace_space). apply IH.
  - cbn [chars]. rewrite !filter_cons_True by exact Hc. by rewrite IH.
Qed.

Lemma chars_lstrip s :
  filter (fun c => isspace c = false) (chars (lstrip s))
  = filter (fun c => isspace c = false) (chars s).
Proof.
  induction s as [|c s IH]; [reflexivity|].
  cbn [lstrip chars]. destruct (isspace c) eqn:Hc; [|reflexivity].
  by rewrite filter_cons_False by (by rewrite Hc).
Qed.

Lemma chars_rstrip s :
  filter (fun c => isspace c = false) (chars (rstrip s))
  = filter (fun c => isspace c = false) (chars s).
Proof.
  induction s as [|c s IH]; [reflexivity|].
  cbn [rstrip chars]. destruct (rstrip s) as [|c' r] eqn:Hr.
  - cbn [chars] in IH. rewrite filter_nil in IH.
    destruct (isspace c) eqn:Hc.
    + rewrite filter_cons_False by (by rewrite Hc). exact IH.
    + cbn [chars]. rewrite !filter_cons_True by exact Hc. by rewrite <- IH.
  - change (chars (String c (String c' r)))
      with (c :: chars (String c' r)).
    destruct (isspace c) eqn:Hc.
    + rewrite !filter_cons_False by (by rewrite Hc). exact IH.
    + rewrite !filter_cons_True by exact Hc. by rewrite IH.
Qed.

(** X3: normalisation only touches whitespace: the characters that are
    not whitespace are kept, all of them and in their order. *)
Theorem normalize_ws_keeps_text text :
  filter (fun c => isspace c = false) (chars (normalize_ws text))
  = filter (fun c => isspace c = false) (chars text).
Proof.
  unfold normalize_ws, re_sub_ws, strip.
  by rewrite chars_lstrip, chars_rstrip, chars_sub_ws.
Qed.

Lemma clean_no_text s :
  clean s -> filter (fun c => isspace c = false) (chars s) = [] -> s = "".
Proof.
  intros (_ & Hl & _) Hnone. destruct s as [|c s]; [reflexivity|].
  cbn [lstrip] in Hl. destruct (isspace c) eqn:Hc.
  - exfalso.
    assert (String.length (lstrip s) <= String.length s)%nat as Hlen.
    { clear. induction s as [|a s IH]; cbn; [lia|].
      destruct (isspace a); cbn; lia. }
    rewrite Hl in Hlen. cbn in Hlen. lia.
  - cbn [chars] in Hnone. rewrite filter_cons_True in Hnone by exact Hc.
    discriminate.
Qed.

(** X4: a text normalises to the empty string exactly when it holds
    nothing but whitespace. *)
Theorem normalize_ws_empty_iff text :
  normalize_ws text = "" <-> Forall (fun c => isspace c = true) (chars text).
Proof.
  assert (filter (fun c => isspace c = false) (chars (normalize_ws text))
          = filter (fun c => isspace c = false) (chars text)) as Hkeep.
  { unfold normalize_ws, re_sub_ws, strip.
    by rewrite chars_lstrip, chars_rstrip, chars_sub_ws. }
  split.
  - intros Hempty.
    rewrite Hempty in Hkeep. cbn in Hkeep. symmetry in Hkeep.
    apply Forall_forall. intros c Hc.
    destruct (isspace c) eqn:Hsp; [reflexivity|]. exfalso.
    assert (c ∈ filter (fun c => isspace c = false) (chars text)) as Hin
      by (apply list_elem_of_filter; auto).
    rewrite Hkeep in Hin. by apply elem_of_nil in Hin.
  - intros Hall. apply clean_no_text; [apply normalize_ws_cleaned|].
    rewrite Hkeep. clear Hkeep.
    induction Hall as [|c l Hc _ IH]; [reflexivity|].
    by rewrite filter_cons_False by (by rewrite Hc).
Qed.

Lemma normalize_ws_empty_iff_witness : normalize_ws "  " = "".
Proof.
  apply (normalize_ws_empty_iff "  "). repeat constructor.
Defined.

End Trimming.

(** ** Lookup keys *)

Section Keys.

Import Str.

Lemma isspace_lower_char c : isspace (lower_char c) = isspace c.
Proof. by destruct c as [[] [] [] [] [] [] [] []]. Qed.

Lemma lower_char_idem c : lower_char (lower_char c) = lower_char c.
Proof. by destruct c as [[] [] [] [] [] [] [] []]. Qed.

Lemma lower_idem s : lower (lower s) = lower s.
Proof.
  induction s as [|c s IH]; cbn; [reflexivity|].
  by rewrite lower_char_idem, IH.
Qed.

Lemma lower_lstrip s : lower (lstrip s) = lstrip (lower s).
Proof.
  induction s as [|c s IH]; cbn; [reflexivity|].
  rewrite isspace_lower_char. by destruct (isspace c).
Qed.

Lemma lower_rstrip s : lower (rstrip s) = rstrip (lower s).
Proof.
  induction s as [|c s IH]; cbn; [reflexivity|].
  rewrite <- IH, isspace_lower_char.
  destruct (rstrip s); cbn; [by destruct (isspace c)|reflexivity].
Qed.

Lemma lower_strip s : lower (strip s) = strip (lower s).
Proof. unfold strip. by rewrite lower_lstrip, lower_rstrip. Qed.

(** X5: trimming and lower-casing commute, and a key made by both is a
    fixed point of both: normalising a key again gives the same key. *)
Theorem key_normal_form s :
  lower (strip s) = strip (lower s)
  /\ strip (lower (strip s)) = lower (strip s)
  /\ lower (lower (strip s)) = lower (strip s).
Proof.
  split; [apply lower_strip|]. split.
  - rewrite <- lower_strip. f_equal. apply strip_idem.
  - apply lower_idem.
Qed.

Lemma length_lower s : String.length (lower s) = String.length s.
Proof. induction s as [|c s IH]; cbn; [reflexivity|]. by rewrite IH. Qed.

End Keys.

(** ** Paths *)

Section Paths.

Import Str.

Lemma sapp_nil_l s : "" +:+ s = s.
Proof. reflexivity. Qed.

Lemma sapp_cons a s t : String a s +:+ t = String a (s +:+ t).
Proof. reflexivity. Qed.

Lemma sapp_nil_r s : s +:+ "" = s.
Proof. induction s as [|a s IH]; [reflexivity|]. by rewrite sapp_cons, IH. Qed.

Lemma sapp_assoc s t u : (s +:+ t) +:+ u = s +:+ t +:+ u.
Proof.
  induction s as [|a s IH]; [reflexivity|]. by rewrite !sapp_cons, IH.
Qed.

Lemma length_sapp s t :
  String.length (s +:+ t) = (String.length s + String.length t)%nat.
Proof.
  induction s as [|a s IH]; [reflexivity|]. rewrite sapp_cons. cbn. by rewrite IH.
Qed.

Lemma substring_all s : String.substring 0 (String.length s) s = s.
Proof. induction s as [|a s IH]; [reflexivity|]. cbn. by rewrite IH. Qed.

Lemma substring_none s : String.substring 0 0 s = "".
Proof. by destruct s. Qed.

(** Slices at the seam of a concatenation. *)
Lemma slice_to_sapp pre post :
  slice_to (pre +:+ post) (Z.of_nat (String.length pre)) = pre.
Proof.
  unfold slice_to. rewrite Nat2Z.id.
  induction pre as [|a pre IH]; [apply substring_none|].
  rewrite sapp_cons. cbn. by rewrite IH.
Qed.

Lemma slice_from_sapp pre post :
  slice_from (pre +:+ post) (Z.of_nat (String.length pre)) = post.
Proof.
  unfold slice_from. rewrite Nat2Z.id.
  induction pre as [|a pre IH].
  - rewrite sapp_nil_l. cbn [String.length]. rewrite Nat.sub_0_r.
    apply substring_all.
  - rewrite sapp_cons. cbn. exact IH.
Qed.

Lemma split_at s : forall k,
  (k <= String.length s)%nat ->
  exists pre post, s = pre +:+ post /\ String.length pre = k.
Proof.
  induction s as [|a s IH]; intros k Hk.
  - exists "", "". cbn in *. split; [reflexivity|lia].
  - destruct k as [|k]; [by exists "", (String a s)|].
    destruct (IH k) as (pre & post & -> & Hlen); [cbn in Hk; lia|].
    exists (String a pre), post. cbn. by rewrite Hlen.
Qed.

(** [rfind] finds the last occurrence. *)
Lemma rfind_from_last c s : forall i last,
  rfind_from c s i last
  = match last_index c s with
    | Some k => i + Z.of_nat k
    | None => last
    end.
Proof.
  induction s as [|a s IH]; intros i last; cbn; [reflexivity|].
  rewrite IH. destruct (last_index c s) as [k|]; [lia|].
  destruct (Ascii.eqb a c); lia.
Qed.

Lemma rfind_last c s :
  rfind c s = match last_index c s with
              | Some k => Z.of_nat k
              | None => -1
              end.
Proof. unfold rfind. rewrite rfind_from_last. by destruct (last_index c s). Qed.

Lemma last_index_split c s : forall k,
  last_index c s = Some k ->
  exists pre post,
    s = pre +:+ String c post /\ String.length pre = k
    /\ last_index c post = None.
Proof.
  induction s as [|a s IH]; intros k Hk; cbn in Hk; [discriminate|].
  destruct (last_index c s) as [j|] eqn:Hj.
  - injection Hk as <-.
    destruct (IH j eq_refl) as (pre & post & -> & Hlen & Hpost).
    exists (String a pre), post. cbn. by rewrite Hlen.
  - destruct (Ascii.eqb a c) eqn:Hac; [|discriminate].
    injection Hk as <-. apply Ascii.eqb_eq in Hac as ->.
    by exists "", s.
Qed.

Lemma last_index_sapp c pre t :
  last_index c (pre +:+ t)
  = match last_index c t with
    | Some j => Some (String.length pre + j)%nat
    | None => last_index c pre
    end.
Proof.
  induction pre as [|a pre IH].
  - rewrite sapp_nil_l. cbn. by destruct (last_index c t).
  - rewrite sapp_cons. cbn. rewrite IH. by destruct (last_index c t).
Qed.

Lemma last_index_seam c pre post :
  last_index c post = None ->
  last_index c (pre +:+ String c post) = Some (String.length pre).
Proof.
  intros Hpost. rewrite last_index_sapp. cbn. rewrite Hpost.
  rewrite Ascii.eqb_refl. f_equal. lia.
Qed.

Lemma basename_seam pre post :
  last_index "/" post = None -> basename (pre +:+ "/" +:+ post) = post.
Proof.
  intros Hpost. unfold basename. rewrite rfind_last.
  change (pre +:+ "/" +:+ post) with (pre +:+ String "/" post).
  rewrite last_index_seam by exact Hpost.
  replace (pre +:+ String "/" post) with ((pre +:+ "/") +:+ post)
    by (by rewrite sapp_assoc).
  replace (Z.of_nat (String.length pre) + 1)
    with (Z.of_nat (String.length (pre +:+ "/")))
    by (rewrite length_sapp; cbn; lia).
  apply slice_from_sapp.
Qed.

Lemma basename_whole p : last_index "/" p = None -> basename p = p.
Proof.
  intros Hp. unfold basename. rewrite rfind_last, Hp.
  apply (slice_from_sapp "" p).
Qed.

(** X6: [os.path.basename] gives what follows the last slash: the whole
    path when it has no slash, the part after the last one otherwise, and
    the result never holds a slash. *)
Theorem basename_after_last_slash p :
  (last_index "/" p = None -> basename p = p)
  /\ (forall pre post,
        p = pre +:+ "/" +:+ post -> last_index "/" post = None ->
        basename p = post)
  /\ last_index "/" (basename p) = None.
Proof.
  split; [apply basename_whole|]. split.
  - intros pre post -> Hpost. by apply basename_seam.
  - destruct (last_index "/" p) as [k|] eqn:Hk.
    + destruct (last_index_split "/" p k Hk) as (pre & post & -> & _ & Hpost).
      change (pre +:+ String "/" post) with (pre +:+ "/" +:+ post).
      by rewrite basename_seam.
    + by rewrite basename_whole.
Qed.

Lemma basename_after_last_slash_witness :
  basename "PDFs/2024/report.pdf" = "report.pdf".
Proof.
  apply (proj1 (proj2 (basename_after_last_slash "PDFs/2024/report.pdf"))
           "PDFs/2024" "report.pdf").
  - reflexivity.
  - reflexivity.
Defined.

Lemma prefix_slash file :
  String.prefix "/" file = true -> last_index "/" file <> None.
Proof.
  destruct file as [|a file]; cbn [String.prefix]; [discriminate|].
  intros Hp. assert (a = "/"%char) as ->.
  { destruct (ascii_dec "/" a); [done|discriminate]. }
  cbn. by destruct (last_index "/" file).
Qed.

Lemma endswith_split suffix s :
  endswith suffix s = true <-> exists pre, s = pre +:+ suffix.
Proof.
  unfold endswith. split.
  - intros [Hlen Heq]%andb_prop. apply Nat.leb_le in Hlen.
    apply String.eqb_eq in Heq.
    destruct (split_at s (String.length s - String.length suffix))
      as (pre & post & Hs & Hpre); [lia|].
    exists pre. rewrite Hs in Heq at 1. rewrite <- Hpre in Heq.
    rewrite slice_from_sapp in Heq. by rewrite <- Heq.
  - intros [pre ->]. apply andb_true_intro. split.
    + apply Nat.leb_le. rewrite length_sapp. lia.
    + apply String.eqb_eq. rewrite length_sapp.
      replace (String.length pre + String.length suffix
               - String.length suffix)%nat with (String.length pre) by lia.
      apply slice_from_sapp.
Qed.

(** X7: line 160 selects the names that end in [.pdf] whatever the case
    of their letters: a file is processed exactly when its lower-cased
    name is some stem followed by [.pdf]. *)
Theorem is_pdf_iff file :
  is_pdf file = true <-> exists stem, lower file = stem +:+ ".pdf".
Proof. unfold is_pdf. apply endswith_split. Qed.

(** X8: the file the builder hands to the PDF extractor is looked up
    under its own name: for a directory entry (a name without a slash),
    the base name of [os.path.join(folder, file)] is the entry, whatever
    the folder, so the registry key is the entry trimmed and lower-cased. *)
Theorem basename_path_join folder file :
  last_index "/" file = None ->
  basename (path_join folder file) = file
  /\ pdf_key (path_join folder file) = lower (strip file).
Proof.
  intros Hfile.
  assert (basename (path_join folder file) = file) as Hbase.
  { unfold path_join.
    destruct (String.prefix "/" file) eqn:Hpre.
    { by apply prefix_slash in Hpre. }
    destruct (String.eqb folder "") eqn:Hempty.
    { apply String.eqb_eq in Hempty as ->. cbn [orb]. rewrite sapp_nil_l.
      by apply basename_whole. }
    cbn [orb]. destruct (endswith "/" folder) eqn:Hend.
    - apply endswith_split in Hend as [pre ->]. rewrite sapp_assoc.
      by apply basename_seam.
    - by apply basename_seam. }
  split; [exact Hbase|]. unfold pdf_key. by rewrite Hbase.
Qed.

Lemma basename_path_join_witness :
  basename (path_join "PDFs" "Report.PDF") = "Report.PDF"
  /\ pdf_key (path_join "PDFs" "Report.PDF") = lower (strip "Report.PDF").
Proof. apply (basename_path_join "PDFs" "Report.PDF"). reflexivity. Defined.

End Paths.

Section Extensions.

Import Str.

Lemma get_seam pre a t :
  String.get (String.length pre) (pre +:+ String a t) = Some a.
Proof.
  induction pre as [|b pre IH]; [reflexivity|]. rewrite sapp_cons. exact IH.
Qed.

Lemma splitext_scan_S p dot fuel i :
  splitext_scan p dot (S fuel) i
  = if i <? dot then
      match String.get (Z.to_nat i) p with
      | Some a =>
          if Ascii.eqb a "." then splitext_scan p dot fuel (i + 1) else true
      | None => true
      end
    else false.
Proof.
  cbn [splitext_scan]. destruct (i <? dot); [|reflexivity].
  by destruct (String.get (Z.to_nat i) p) as [[[] [] [] [] [] [] [] []]|].
Qed.

(** The loop of [splitext] finds a character other than a dot, if the
    stem has one. *)
Lemma splitext_scan_stem stem : forall pre rest,
  splitext_scan (pre +:+ stem +:+ rest)
    (Z.of_nat (String.length pre + String.length stem))
    (String.length stem) (Z.of_nat (String.length pre))
  = existsb (fun c => negb (Ascii.eqb c ".")) (chars stem).
Proof.
  induction stem as [|a stem IH]; intros pre rest; [reflexivity|].
  cbn [String.length chars existsb]. rewrite splitext_scan_S.
  replace (Z.of_nat (String.length pre)
           <? Z.of_nat (String.length pre + S (String.length stem)))
    with true by (symmetry; apply Z.ltb_lt; lia).
  rewrite Nat2Z.id, sapp_cons, get_seam.
  destruct (Ascii.eqb a ".") eqn:Ha; [|reflexivity].
  apply Ascii.eqb_eq in Ha as ->. cbn [negb orb].
  specialize (IH (pre +:+ ".") rest).
  rewrite sapp_assoc, length_sapp in IH. cbn [String.length] in IH.
  rewrite sapp_cons, sapp_nil_l in IH.
  replace (String.length pre + 1 + String.length stem)%nat
    with (String.length pre + S (String.length stem))%nat in IH by lia.
  replace (Z.of_nat (String.length pre) + 1)
    with (Z.of_nat (String.length pre + 1)) by lia.
  exact IH.
Qed.

(** X9: [os.path.splitext] splits without loss: root and extension
    concatenate to the path, and the extension is empty or is a period
    followed by characters among which there is no period and no slash. *)
Theorem splitext_root_ext p :
  (splitext p).1 +:+ (splitext p).2 = p
  /\ ((splitext p).2 = ""
      \/ exists body,
           (splitext p).2 = String "." body
           /\ last_index "." body = None /\ last_index "/" body = None).
Proof.
  unfold splitext. rewrite !rfind_last.
  destruct (last_index "." p) as [k|] eqn:Hdot.
  2:{ replace (_ <? -1) with false
        by (symmetry; apply Z.ltb_ge; destruct (last_index "/" p); lia).
      cbn. split; [apply sapp_nil_r|by left]. }
  destruct (last_index_split "." p k Hdot) as (pre & body & Hp & Hlen & Hbody).
  match goal with |- context [if ?c then _ else _] => destruct c eqn:Hc end;
    cbn [fst snd]; [|split; [apply sapp_nil_r|by left]].
  apply andb_prop in Hc as [Hsep _]. apply Z.ltb_lt in Hsep.
  rewrite Hp, <- Hlen, slice_to_sapp, slice_from_sapp.
  split; [reflexivity|]. right. exists body. repeat split; [exact Hbody|].
  destruct (last_index "/" body) as [j|] eqn:Hj; [exfalso|reflexivity].
  rewrite Hp, last_index_sapp in Hsep. cbn [last_index] in Hsep.
  rewrite Hj in Hsep. lia.
Qed.

(** X10: the title taken from a file name is the name without its
    extension: a name [stem.body] without a slash, whose stem is not made
    of periods only and whose body has no period, splits at its last
    period; a name without any period is its own root. *)
Theorem splitext_file_name :
  (forall stem body,
     last_index "/" stem = None -> last_index "/" body = None ->
     last_index "." body = None ->
     (exists c, c ∈ chars stem /\ c <> "."%char) ->
     splitext (stem +:+ "." +:+ body) = (stem, "." +:+ body))
  /\ (forall p, last_index "." p = None -> splitext p = (p, "")).
Proof.
  split.
  - intros stem body Hs Hb Hbody (c & Hc & Hne).
    unfold splitext. rewrite !rfind_last.
    change (stem +:+ "." +:+ body) with (stem +:+ String "." body).
    rewrite (last_index_seam "." stem body Hbody).
    rewrite last_index_sapp. cbn [last_index]. rewrite Hb, Hs.
    cbn [Ascii.eqb Bool.eqb]. cbn [Z.add].
    replace (-1 <? Z.of_nat (String.length stem)) with true
      by (symmetry; apply Z.ltb_lt; lia).
    replace (Z.to_nat (Z.of_nat (String.length stem) - (-1 + 1)))
      with (String.length stem) by lia.
    pose proof (splitext_scan_stem stem "" (String "." body)) as Hscan.
    rewrite sapp_nil_l in Hscan.
    change (Z.of_nat (String.length "")) with 0 in Hscan.
    change (String.length "" + String.length stem)%nat
      with (String.length stem) in Hscan.
    change (-1 + 1) with 0. rewrite Hscan.
    replace (existsb _ (chars stem)) with true.
    + cbn [andb]. by rewrite slice_to_sapp, slice_from_sapp.
    + symmetry. apply existsb_exists. exists c.
      split; [by apply list_elem_of_In|].
      apply negb_true_iff. by apply Ascii.eqb_neq.
  - intros p Hp. unfold splitext. rewrite !rfind_last, Hp.
    replace (_ <? -1) with false
      by (symmetry; apply Z.ltb_ge; destruct (last_index "/" p); lia).
    reflexivity.
Qed.

Lemma splitext_file_name_witness :
  splitext ("annual.report" +:+ "." +:+ "pdf") = ("annual.report", ".pdf").
Proof.
  apply (proj1 splitext_file_name "annual.report" "pdf");
    try reflexivity.
  exists "a"%char. split; [apply elem_of_cons; by left|discriminate].
Defined.

End Extensions.

(** ** The registry loader on arbitrary sources *)

Section Loader.

Import Str.

(** Whatever the row, the loop body leaves the mapping as it is or stores
    one entry of two trimmed fields under a trimmed, lower-cased key. *)
Lemma load_row_effect row0 (f : frame registry) :
  exists r f',
    load_row row0 f = (r, f')
    /\ (obj f' = obj f
        \/ exists s t w,
             obj f' = <[lower (strip s) :=
                          {[ "title" := strip t; "web_link" := strip w ]}]>
                        (obj f)).
Proof.
  unfold load_row.
  destruct (negb (truthy (get "Document Name" (strip_keys row0)))).
  { eexists _, _. split; [reflexivity|]. by left. }
  destruct (get "Document Name" (strip_keys row0)) as [|s|n|l];
    try (eexists _, _; split; [reflexivity|]; by left).
  destruct (get_default "Title" (VStr "") (strip_keys row0)) as [|t|n|l];
    try (eexists _, _; split; [reflexivity|]; by left).
  destruct (get_default "Web Link" (VStr "") (strip_keys row0)) as [|w|n|l];
    try (eexists _, _; split; [reflexivity|]; by left).
  eexists _, _. split; [reflexivity|]. right. by exists s, t, w.
Qed.

Lemma normal_registry_step row0 (f : frame registry) r f' :
  load_row row0 f = (r, f') ->
  normal_registry (obj f) -> normal_registry (obj f').
Proof.
  intros Hrun Hm.
  destruct (load_row_effect row0 f) as (r0 & f0 & Hrun0 & Heff).
  rewrite Hrun in Hrun0. injection Hrun0 as <- <-.
  destruct Heff as [->|(s & t & w & ->)]; [exact Hm|].
  intros k e Hk. destruct (decide (lower (strip s) = k)) as [<-|Hne].
  - rewrite lookup_insert_eq in Hk. injection Hk as <-. split.
    + rewrite <- (lower_strip (strip s)). by rewrite strip_idem, lower_idem.
    + exists (strip t), (strip w). by rewrite !strip_idem.
  - rewrite lookup_insert_ne in Hk by exact Hne. by apply Hm.
Qed.

Lemma normal_registry_rows fieldnames recs : forall (f : frame registry) r f',
  for_rows fieldnames recs f = (r, f') ->
  normal_registry (obj f) -> normal_registry (obj f').
Proof.
  induction recs as [|[[|x row]|e] recs IH]; intros f r f' Hrun Hm;
    cbn [for_rows] in Hrun.
  - by injection Hrun as <- <-.
  - eauto.
  - unfold bind in Hrun.
    destruct (load_row _ f) as [[[]|e] f1] eqn:Hrow.
    + eapply IH; [exact Hrun|]. by eapply normal_registry_step.
    + injection Hrun as <- <-. by eapply normal_registry_step.
  - by injection Hrun as <- <-.
Qed.

End Loader.

Lemma load_try_normal file r (f : frame registry) :
  load_try file (Frame ∅ []) = (r, f) -> normal_registry (obj f).
Proof.
  intros Htry.
  assert (normal_registry (∅ : registry)) as Hempty
    by (intros k e Hk; by rewrite lookup_empty in Hk).
  unfold load_try in Htry.
  destruct file as [e|[|[fieldnames|e] recs]].
  - by injection Htry as <- <-.
  - by injection Htry as <- <-.
  - unfold bind, print in Htry. cbn in Htry.
    by eapply normal_registry_rows.
  - by injection Htry as <- <-.
Qed.

(** X11: whatever the source, every key of the mapping [load] returns is
    trimmed and lower-cased, and every entry holds exactly a title and a
    web_link, both trimmed. *)
Theorem load_registry_normal fs csv_path (m : registry) out :
  load_sharepoint_links fs csv_path = (Ret m, out) -> normal_registry m.
Proof.
  intros Hload.
  destruct (load_try (fs csv_path) (Frame ∅ [])) as [r f] eqn:Htry.
  rewrite (load_returns_built fs csv_path r f Htry) in Hload.
  injection Hload as <- _. by eapply load_try_normal.
Qed.

Lemma load_registry_normal_witness :
  normal_registry {[ "a.pdf" := {[ "title" := "A";
                                   "web_link" := "https://x/a" ]} ]}.
Proof.
  apply (load_registry_normal
           (fun _ => CsvFile [Row ["Document Name"; "Title"; "Web Link"];
                              Row [" A.PDF "; " A"; "https://x/a "];
                              Row ["b.pdf"]])
           "urls.csv" _
           [DebugHeaders (Some ["Document Name"; "Title"; "Web Link"]);
            ErrorLoading "urls.csv" AttributeError]).
  vm_compute. reflexivity.
Defined.

Lemma for_rows_blank fieldnames recs2 recs1 : forall f,
  for_rows fieldnames (recs1 ++ Row [] :: recs2) f
  = for_rows fieldnames (recs1 ++ recs2) f.
Proof.
  induction recs1 as [|[[|x row]|e] recs1 IH]; intros f;
    cbn [app for_rows]; try reflexivity.
  - apply IH.
  - unfold bind. destruct (load_row _ f) as [[[]|e] f1]; [apply IH|reflexivity].
Qed.

(** X12: a blank record after the header is passed over: the call returns
    and prints the same with and without it. *)
Theorem load_skips_blank_records fs csv_path fieldnames recs1 recs2 :
  fs csv_path = CsvFile (Row fieldnames :: recs1 ++ Row [] :: recs2) ->
  load_sharepoint_links fs csv_path
  = load_sharepoint_links
      (fun _ => CsvFile (Row fieldnames :: recs1 ++ recs2)) csv_path.
Proof.
  intros Hfs. unfold load_sharepoint_links, call, bind, try_except.
  rewrite Hfs. cbn [load_try]. unfold bind, print. cbn.
  by rewrite for_rows_blank.
Qed.

Lemma load_skips_blank_records_witness :
  load_sharepoint_links
    (fun _ => CsvFile (Row ["Document Name"; "Title"; "Web Link"]
                       :: [Row ["a.pdf"; "A"; ""]] ++ Row []
                       :: [Row ["b.pdf"; "B"; ""]])) "urls.csv"
  = load_sharepoint_links
      (fun _ => CsvFile (Row ["Document Name"; "Title"; "Web Link"]
                         :: [Row ["a.pdf"; "A"; ""]]
                         ++ [Row ["b.pdf"; "B"; ""]])) "urls.csv".
Proof.
  apply (load_skips_blank_records _ "urls.csv"
           ["Document Name"; "Title"; "Web Link"]
           [Row ["a.pdf"; "A"; ""]] [Row ["b.pdf"; "B"; ""]]).
  reflexivity.
Defined.

Lemma named_has_document_name fieldnames row :
  named fieldnames row = true <-> has_document_name fieldnames row.
Proof.
  unfold named, has_document_name. split.
  - destruct (field "Document Name" fieldnames row) as [s|]; [|discriminate].
    intros Hs. exists s. split; [reflexivity|].
    apply String.eqb_neq. by apply negb_true_iff.
  - intros (s & -> & Hne). apply negb_true_iff. by apply String.eqb_neq.
Qed.

Section Skipped.

Variable fieldnames : list string.
Hypothesis Hheader : well_formed_header fieldnames.
Hypothesis Hcolumns : fieldnames <> [].

(** A complete row without a document name is reported and stores
    nothing. *)
Lemma load_row_skips row (m : registry) out :
  complete_row fieldnames row ->
  named fieldnames row = false ->
  load_row (DictReader_next fieldnames row) (Frame m out)
  = (Ret tt,
     Frame m (out ++ [DebugNoDocumentName
                        (strip_keys (DictReader_next fieldnames row))])).
Proof.
  intros Hlen Hname. unfold load_row, get.
  rewrite strip_keys_complete_row by assumption.
  unfold named in Hname.
  destruct (field "Document Name" fieldnames row) as [s|]; cbn.
  - apply negb_false_iff in Hname. by rewrite Hname.
  - reflexivity.
Qed.

Lemma for_rows_complete rows : forall (m : registry) out,
  Forall (complete_row fieldnames) rows ->
  for_rows fieldnames (Row <$> rows) (Frame m out)
  = (Ret tt,
     Frame (foldl (store_row fieldnames) m
              (filter (fun row => named fieldnames row = true) rows))
           (out ++ ((fun row => DebugNoDocumentName
                                  (strip_keys (DictReader_next fieldnames row)))
                    <$> filter (fun row => named fieldnames row = false)
                               rows))).
Proof.
  induction rows as [|row rows IH]; intros m out Hlen.
  { cbn. unfold ret. by rewrite app_nil_r. }
  apply Forall_cons in Hlen as [Hlen Hlens].
  rewrite fmap_cons. cbn [for_rows].
  destruct row as [|x row].
  { unfold complete_row in Hlen. destruct fieldnames; [done|cbn in Hlen; lia]. }
  unfold bind. destruct (named fieldnames (x :: row)) eqn:Hname.
  - rewrite load_row_stores
      by (try apply named_has_document_name; assumption).
    rewrite IH by exact Hlens.
    rewrite filter_cons_True by exact Hname.
    by rewrite filter_cons_False by (by rewrite Hname).
  - rewrite load_row_skips by assumption.
    rewrite IH by exact Hlens.
    rewrite filter_cons_False by (by rewrite Hname).
    rewrite filter_cons_True by exact Hname.
    rewrite fmap_cons. by rewrite <- app_assoc.
Qed.

End Skipped.

(** X13: a row without a document name does not abort the load: for a
    well-formed header and complete rows, the mapping is what the rows
    with a document name store, in their order, and the output is the
    header line followed by one line for each row without a document
    name, in their order. *)
Theorem load_skips_unnamed_rows fs csv_path fieldnames rows :
  fs csv_path = CsvFile (Row fieldnames :: (Row <$> rows)) ->
  well_formed_header fieldnames ->
  fieldnames <> [] ->
  Forall (complete_row fieldnames) rows ->
  load_sharepoint_links fs csv_path
  = (Ret (foldl (store_row fieldnames) ∅
            (filter (fun row => named fieldnames row = true) rows)),
     DebugHeaders (Some fieldnames)
     :: ((fun row => DebugNoDocumentName
                       (strip_keys (DictReader_next fieldnames row)))
         <$> filter (fun row => named fieldnames row = false) rows)).
Proof.
  intros Hfs Hheader Hcolumns Hlen.
  erewrite load_returns_built.
  2:{ rewrite Hfs. cbn [load_try]. unfold bind, print. cbn.
      by apply for_rows_complete. }
  reflexivity.
Qed.

Lemma load_skips_unnamed_rows_witness :
  let fieldnames := ["Document Name"; "Title"; "Web Link"] in
  let rows := [["a.pdf"; "A"; ""]; [""; "lost"; "https://x/lost"];
               ["b.pdf"; "B"; ""]] in
  load_sharepoint_links
    (fun _ => CsvFile (Row fieldnames :: (Row <$> rows))) "urls.csv"
  = (Ret (foldl (store_row fieldnames) ∅
            (filter (fun row => named fieldnames row = true) rows)),
     DebugHeaders (Some fieldnames)
     :: ((fun row => DebugNoDocumentName
                       (strip_keys (DictReader_next fieldnames row)))
         <$> filter (fun row => named fieldnames row = false) rows)).
Proof.
  intros fieldnames rows.
  apply (load_skips_unnamed_rows _ "urls.csv" fieldnames rows).
  - reflexivity.
  - unfold well_formed_header. by_decide.
  - discriminate.
  - repeat constructor; unfold complete_row; cbn; lia.
Defined.

(** ** Rows with the same document name *)

(** C10 as stated fails: the row between the two rows of [a.pdf] has no
    Title field, [None.strip()] raises at line 38 and the load stops; the
    later row is never read and the mapping returned holds the entry of
    the earlier one. *)
Lemma load_later_duplicate_not_read :
  let fieldnames := ["Document Name"; "Title"; "Web Link"] in
  let r1 := ["a.pdf"; "A"; "https://x/a"] in
  let r2 := [" A.PDF"; "B"; "https://x/b"] in
  let fs := fun _ : string =>
    CsvFile [Row fieldnames; Row r1; Row ["b.pdf"]; Row r2] in
  row_key fieldnames r1 = row_key fieldnames r2
  /\ exists (m : registry) out,
       load_sharepoint_links fs "urls.csv" = (Ret m, out)
       /\ m !! row_key fieldnames r2 = Some (row_entry fieldnames r1)
       /\ m !! row_key fieldnames r2 <> Some (row_entry fieldnames r2)
       /\ out = [DebugHeaders (Some fieldnames);
                 ErrorLoading "urls.csv" AttributeError].
Proof.
  intros fieldnames r1 r2 fs. split; [vm_compute; reflexivity|].
  eexists _, _. split; [vm_compute; reflexivity|].
  split; [vm_compute; reflexivity|]. split; [|reflexivity].
  intros Heq. apply (f_equal (fun o => o ≫= (.!! "title"))) in Heq.
  vm_compute in Heq. discriminate.
Qed.

(** Two rows whose document-name field is empty are both passed over at
    line 34: the mapping has no entry for their key, and each row is
    reported. *)
Lemma load_unnamed_duplicates_skipped :
  let fieldnames := ["Document Name"; "Title"; "Web Link"] in
  let r1 := [""; "A"; "https://x/a"] in
  let r2 := [""; "B"; "https://x/b"] in
  let fs := fun _ : string => CsvFile [Row fieldnames; Row r1; Row r2] in
  row_key fieldnames r1 = row_key fieldnames r2
  /\ exists (m : registry) out,
       load_sharepoint_links fs "urls.csv" = (Ret m, out)
       /\ m !! row_key fieldnames r2 = None
       /\ length out = 3%nat.
Proof.
  intros fieldnames r1 r2 fs. split; [reflexivity|].
  eexists _, _. split; [vm_compute; reflexivity|].
  split; vm_compute; reflexivity.
Qed.

Lemma filter_duplicate_rows (P : list string -> Prop)
    `{forall row, Decision (P row)} pre r1 mid r2 post :
  P r1 -> P r2 ->
  filter P (pre ++ r1 :: mid ++ r2 :: post)
  = filter P pre ++ r1 :: filter P mid ++ r2 :: filter P post.
Proof.
  intros H1 H2. rewrite filter_app, filter_cons_True by exact H1.
  by rewrite filter_app, filter_cons_True by exact H2.
Qed.

(** C10, as the code has it: in a source with a well-formed header whose
    rows are all complete (a field for every column), so that the load
    reads every row, when two rows have non-empty document names that are
    equal after trimming and lower-casing, the mapping returned has
    exactly one entry for that key, with the title and web_link of the
    last such row; the mapping has fewer entries than there are rows with
    a document name, and the overwriting prints nothing: the output is
    the header line and one line for each row without a document name. *)
Theorem load_last_row_wins fs csv_path fieldnames pre r1 mid r2 post :
  let rows := pre ++ r1 :: mid ++ r2 :: post in
  fs csv_path = CsvFile (Row fieldnames :: (Row <$> rows)) ->
  well_formed_header fieldnames ->
  Forall (complete_row fieldnames) rows ->
  has_document_name fieldnames r1 ->
  has_document_name fieldnames r2 ->
  row_key fieldnames r1 = row_key fieldnames r2 ->
  (forall r, r ∈ post -> has_document_name fieldnames r ->
     row_key fieldnames r <> row_key fieldnames r2) ->
  exists (m : registry) out,
    load_sharepoint_links fs csv_path = (Ret m, out)
    /\ m !! row_key fieldnames r2 = Some (row_entry fieldnames r2)
    /\ length (filter (fun kv => kv.1 = row_key fieldnames r2)
                      (map_to_list m)) = 1%nat
    /\ (size m
        < length (filter (fun row => named fieldnames row = true) rows))%nat
    /\ out
       = DebugHeaders (Some fieldnames)
         :: ((fun row => DebugNoDocumentName
                           (strip_keys (DictReader_next fieldnames row)))
             <$> filter (fun row => named fieldnames row = false) rows).
Proof.
  intros rows Hfs Hheader Hlen Hr1 Hr2 Hkey Hpost.
  assert (fieldnames <> []) as Hcolumns.
  { destruct Hr2 as (s & Hs & _). intros ->. discriminate. }
  apply named_has_document_name in Hr1, Hr2.
  eexists _, _. split.
  { erewrite load_returns_built.
    2:{ rewrite Hfs. cbn [load_try]. unfold bind, print. cbn.
        by apply for_rows_complete. }
    reflexivity. }
  cbn [obj stdout app]. subst rows.
  rewrite (filter_duplicate_rows (fun row => named fieldnames row = true))
    by assumption.
  assert (foldl (store_row fieldnames) ∅
            (filter (fun row => named fieldnames row = true) pre
             ++ r1 :: filter (fun row => named fieldnames row = true) mid
             ++ r2 :: filter (fun row => named fieldnames row = true) post)
          !! row_key fieldnames r2
          = Some (row_entry fieldnames r2)) as Hlast.
  { match goal with
    | |- foldl _ _ (?A ++ r1 :: ?B ++ r2 :: ?C) !! _ = _ =>
        replace (A ++ r1 :: B ++ r2 :: C) with ((A ++ r1 :: B) ++ r2 :: C)
          by (by rewrite <- app_assoc)
    end.
    apply foldl_store_last. intros r [Hnamed Hr]%list_elem_of_filter.
    apply Hpost; [exact Hr|]. by apply named_has_document_name. }
  split; [exact Hlast|]. split; [by eapply one_item_per_key|].
  split; [by apply foldl_store_size_dup|reflexivity].
Qed.

Lemma load_last_row_wins_witness :
  let fieldnames := ["Document Name"; "Title"; "Web Link"] in
  let r1 := ["a.pdf"; "A"; "https://x/a"] in
  let r2 := [" A.PDF"; "B"; "https://x/b"] in
  let rows := [["z.pdf"; "Z"; ""]; [""; "lost"; ""]] ++ r1
              :: [[" "; "blank"; ""]] ++ r2 :: [["c.pdf"; "C"; ""]] in
  let fs := fun _ : string => CsvFile (Row fieldnames :: (Row <$> rows)) in
  exists (m : registry) out,
    load_sharepoint_links fs "urls.csv" = (Ret m, out)
    /\ m !! row_key fieldnames r2 = Some (row_entry fieldnames r2)
    /\ length (filter (fun kv => kv.1 = row_key fieldnames r2)
                      (map_to_list m)) = 1%nat
    /\ (size m
        < length (filter (fun row => named fieldnames row = true) rows))%nat
    /\ out
       = DebugHeaders (Some fieldnames)
         :: ((fun row => DebugNoDocumentName
                           (strip_keys (DictReader_next fieldnames row)))
             <$> filter (fun row => named fieldnames row = false) rows).
Proof.
  intros fieldnames r1 r2 rows fs.
  apply (load_last_row_wins fs "urls.csv" fieldnames
           [["z.pdf"; "Z"; ""]; [""; "lost"; ""]] r1 [[" "; "blank"; ""]] r2
           [["c.pdf"; "C"; ""]]).
  - reflexivity.
  - unfold well_formed_header. by_decide.
  - repeat constructor; unfold complete_row; cbn; lia.
  - eexists; split; [vm_compute; reflexivity|discriminate].
  - eexists; split; [vm_compute; reflexivity|discriminate].
  - vm_compute. reflexivity.
  - intros r Hr _. apply list_elem_of_singleton in Hr as ->.
    vm_compute. discriminate.
Defined.

(** ** Rows shorter than the header *)

Section ShortRows.

Import Str.

Lemma zip_short {A B} (l1 l2 : list A) (k : list B) :
  length l1 = length k -> zip (l1 ++ l2) k = zip l1 k.
Proof.
  revert k. induction l1 as [|x l1 IH]; intros [|y k] Hlen;
    cbn in *; try discriminate; try reflexivity.
  - by destruct l2.
  - f_equal. apply IH. lia.
Qed.

Lemma nones_from keys : forall (d0 : odict (option string) value),
  NoDup keys ->
  (forall key, key ∈ keys -> Some key ∉ d0.*1) ->
  foldl (fun d key => setitem (Some key) VNone d) d0 keys
  = d0 ++ ((fun key => (Some key, VNone)) <$> keys).
Proof.
  induction keys as [|key keys IH]; intros d0 Hnd Hfresh; cbn;
    [by rewrite app_nil_r|].
  apply NoDup_cons in Hnd as [Hkey Hnd].
  rewrite setitem_fresh by (apply Hfresh; left).
  rewrite IH; [by rewrite <- app_assoc|exact Hnd|].
  intros key' Hkey'. rewrite fmap_app. cbn.
  apply not_elem_of_app. split; [apply Hfresh; by right|].
  apply not_elem_of_cons. split; [|apply not_elem_of_nil].
  intros [= ->]. contradiction.
Qed.

Lemma zip_keys (fieldnames row : list string) key :
  Some key ∈ ((fun kv : string * string => (Some kv.1, VStr kv.2))
              <$> zip fieldnames row).*1 ->
  key ∈ fieldnames.
Proof.
  revert row. induction fieldnames as [|h fieldnames IH]; intros [|x row];
    cbn; try (intros H; by apply elem_of_nil in H).
  intros [[= ->]|Hin]%elem_of_cons; [by left|]. right. by eapply IH.
Qed.

(** The dictionary of a row that ends after the columns [fn1]: the
    columns [fn2] it does not reach are there, with the value [None]. *)
Lemma DictReader_next_short fn1 fn2 row :
  length fn1 = length row -> fn2 <> [] -> NoDup (fn1 ++ fn2) ->
  DictReader_next (fn1 ++ fn2) row
  = ((fun kv => (Some kv.1, VStr kv.2)) <$> zip fn1 row)
    ++ ((fun key => (Some key, VNone)) <$> fn2).
Proof.
  intros Hlen Hfn2 Hnd. unfold DictReader_next, dict_zip.
  rewrite zip_short by exact Hlen.
  apply NoDup_app in Hnd as (Hnd1 & Hdisj & Hnd2).
  rewrite dict_zip_from;
    [|exact Hnd1|intros h _; apply not_elem_of_nil].
  rewrite app_nil_l, length_app.
  assert (length fn2 <> 0)%nat by (by destruct fn2).
  replace (length fn1 + length fn2 <? length row)%nat with false
    by (symmetry; apply Nat.ltb_ge; lia).
  replace (length row <? length fn1 + length fn2)%nat with true
    by (symmetry; apply Nat.ltb_lt; lia).
  rewrite <- Hlen, drop_app_length.
  apply nones_from; [exact Hnd2|].
  intros key Hkey Hin. apply zip_keys in Hin. by apply (Hdisj key).
Qed.

Lemma strip_keys_nones name keys : forall acc : gmap string value,
  foldl (fun (acc : gmap string value) (kv : option string * value) =>
           match kv.1 with
           | Some key => <[strip key := kv.2]> acc
           | None => acc
           end) acc
        ((fun key => (Some key, VNone)) <$> keys) !! name
  = if decide (name ∈ strip <$> keys) then Some VNone else acc !! name.
Proof.
  induction keys as [|key keys IH]; intros acc; cbn.
  - destruct (decide _) as [Hin|]; [by apply elem_of_nil in Hin|reflexivity].
  - rewrite IH. destruct (decide (name ∈ strip <$> keys)) as [Hin|Hnotin].
    + rewrite decide_True; [reflexivity|by right].
    + destruct (decide (strip key = name)) as [<-|Hne].
      * rewrite decide_True by (by left). apply lookup_insert_eq.
      * rewrite decide_False.
        -- by apply lookup_insert_ne.
        -- intros [?|?]%elem_of_cons; congruence.
Qed.

Lemma field_some_in name fieldnames : forall row x,
  field name fieldnames row = Some x -> name ∈ strip <$> fieldnames.
Proof.
  induction fieldnames as [|h fieldnames IH]; intros [|y row] x;
    cbn; try discriminate.
  destruct (decide (strip h = name)) as [<-|Hne]; [intros _; by left|].
  intros Hx. right. by eapply IH.
Qed.

(** What line 28 makes of a short row. *)
Lemma strip_keys_short_row fn1 fn2 row name :
  well_formed_header (fn1 ++ fn2) ->
  length fn1 = length row -> fn2 <> [] ->
  strip_keys (DictReader_next (fn1 ++ fn2) row) !! name
  = if decide (name ∈ strip <$> fn2) then Some VNone
    else VStr <$> field name fn1 row.
Proof.
  intros Hheader Hlen Hfn2. unfold well_formed_header in Hheader.
  rewrite DictReader_next_short; [|exact Hlen|exact Hfn2|by eapply NoDup_fmap_1].
  unfold strip_keys. rewrite foldl_app, strip_keys_nones.
  destruct (decide (name ∈ strip <$> fn2)); [reflexivity|].
  rewrite fmap_app in Hheader. apply NoDup_app in Hheader as (Hnd1 & _).
  rewrite strip_keys_columns by exact Hnd1. rewrite lookup_empty.
  by destruct (field name fn1 row).
Qed.

(** A row with a document name that ends before the Title or the Web
    Link column raises, and stores nothing. *)
Lemma load_row_short fn1 fn2 row (m : registry) out :
  well_formed_header (fn1 ++ fn2) ->
  length fn1 = length row ->
  has_document_name fn1 row ->
  "Title" ∈ strip <$> fn2 \/ "Web Link" ∈ strip <$> fn2 ->
  load_row (DictReader_next (fn1 ++ fn2) row) (Frame m out)
  = (Raise AttributeError, Frame m out).
Proof.
  intros Hheader Hlen (s & Hs & Hne) Hmissing.
  assert (fn2 <> []) as Hfn2.
  { intros ->. destruct Hmissing as [H|H]; by apply elem_of_nil in H. }
  assert ("Document Name" ∉ strip <$> fn2) as Hdoc.
  { intros Hin. apply field_some_in in Hs.
    unfold well_formed_header in Hheader. rewrite fmap_app in Hheader.
    apply NoDup_app in Hheader as (_ & Hdisj & _). by apply (Hdisj _ Hs). }
  unfold load_row, get, get_default.
  rewrite !strip_keys_short_row by assumption.
  rewrite (decide_False (P := "Document Name" ∈ strip <$> fn2)) by exact Hdoc.
  rewrite Hs. cbn. apply String.eqb_neq in Hne. rewrite Hne. cbn.
  unfold bind, ret. cbn.
  destruct (decide ("Title" ∈ strip <$> fn2)) as [|Htitle]; [reflexivity|].
  destruct Hmissing as [|Hlink]; [contradiction|].
  rewrite (decide_True (P := "Web Link" ∈ strip <$> fn2)) by exact Hlink.
  by destruct (field "Title" fn1 row).
Qed.

Lemma for_rows_stores_then fieldnames rows recs : forall (m : registry) out,
  well_formed_header fieldnames ->
  Forall (complete_row fieldnames) rows ->
  Forall (has_document_name fieldnames) rows ->
  for_rows fieldnames ((Row <$> rows) ++ recs) (Frame m out)
  = for_rows fieldnames recs
      (Frame (foldl (store_row fieldnames) m rows) out).
Proof.
  induction rows as [|row rows IH]; intros m out Hheader Hlen Hdoc;
    [reflexivity|].
  apply Forall_cons in Hlen as [Hlen Hlens].
  apply Forall_cons in Hdoc as [Hdoc Hdocs].
  rewrite fmap_cons. cbn [app for_rows foldl].
  destruct row as [|x row].
  { destruct Hdoc as (s & Hs & _). by destruct fieldnames. }
  unfold bind. rewrite load_row_stores by assumption. by apply IH.
Qed.

(** X14: a missing field is not tolerated: when a row with a document
    name ends before the Title or the Web Link column, [.strip()] is
    called on [None]; the load stops there with an [AttributeError] line,
    returns the entries of the rows before it and reads no further. *)
Theorem load_stops_at_short_row
    fs csv_path fn1 fn2 rows bad rest :
  fs csv_path
  = CsvFile (Row (fn1 ++ fn2) :: (Row <$> rows) ++ Row bad :: rest) ->
  well_formed_header (fn1 ++ fn2) ->
  Forall (complete_row (fn1 ++ fn2)) rows ->
  Forall (has_document_name (fn1 ++ fn2)) rows ->
  length fn1 = length bad ->
  has_document_name fn1 bad ->
  "Title" ∈ strip <$> fn2 \/ "Web Link" ∈ strip <$> fn2 ->
  load_sharepoint_links fs csv_path
  = (Ret (foldl (store_row (fn1 ++ fn2)) ∅ rows),
     [DebugHeaders (Some (fn1 ++ fn2));
      ErrorLoading csv_path AttributeError]).
Proof.
  intros Hfs Hheader Hlen Hdoc Hbad Hname Hmissing.
  erewrite load_returns_built.
  2:{ rewrite Hfs. cbn [load_try]. unfold bind at 1. unfold print. cbn.
      rewrite for_rows_stores_then by assumption.
      cbn [for_rows]. destruct bad as [|x bad].
      { destruct Hname as (s & Hs & _). by destruct fn1. }
      unfold bind. rewrite load_row_short by assumption. reflexivity. }
  reflexivity.
Qed.

Lemma load_stops_at_short_row_witness :
  load_sharepoint_links
    (fun _ => CsvFile (Row (["Document Name"] ++ ["Title"; "Web Link"])
                       :: (Row <$> [["a.pdf"; "A"; "https://x/a"]])
                       ++ Row ["b.pdf"] :: [Row ["c.pdf"; "C"; ""]]))
    "urls.csv"
  = (Ret (foldl (store_row (["Document Name"] ++ ["Title"; "Web Link"])) ∅
            [["a.pdf"; "A"; "https://x/a"]]),
     [DebugHeaders (Some (["Document Name"] ++ ["Title"; "Web Link"]));
      ErrorLoading "urls.csv" AttributeError]).
Proof.
  apply (load_stops_at_short_row _ "urls.csv" ["Document Name"]
           ["Title"; "Web Link"] [["a.pdf"; "A"; "https://x/a"]]
           ["b.pdf"] [Row ["c.pdf"; "C"; ""]]).
  - reflexivity.
  - unfold well_formed_header. by_decide.
  - repeat constructor; unfold complete_row; cbn; lia.
  - repeat constructor; (eexists; split; [vm_compute; reflexivity|discriminate]).
  - reflexivity.
  - eexists; split; [vm_compute; reflexivity|discriminate].
  - left. apply elem_of_cons. by left.
Defined.

End ShortRows.

(** ** The PDF extractor on failing and unregistered documents *)

Section PdfFailures.

Variable fs : string -> pdf_file.
Variable pdf_path : string.
Variable sharepoint_links : registry.

Lemma for_pages_stops doc_title sp_data texts e rest : forall i cs out,
  for_pages doc_title sp_data i ((Ret <$> texts) ++ Raise e :: rest)
    (Frame cs out)
  = (Raise e,
     Frame (cs ++ emitted doc_title sp_data i (Ret <$> texts)) out).
Proof.
  induction texts as [|text texts IH]; intros i cs out.
  - cbn. unfold bind, extract_page, lift. cbn. by rewrite app_nil_r.
  - rewrite fmap_cons. cbn [app for_pages emitted].
    unfold bind at 1. unfold extract_page, bind, lift, update. cbn.
    fold (page_record doc_title sp_data i text).
    rewrite IH. by rewrite <- app_assoc.
Qed.

(** What the call prints before the [try]. *)
Lemma extract_pdf_info_run :
  let file_name := Str.strip (basename pdf_path) in
  let sp_data := sharepoint_links !! pdf_key pdf_path in
  let out0 := if negb (dict_truthy sp_data)
              then [DebugNoMapping file_name (pdf_key pdf_path)] else [] in
  forall r f,
    extract_pdf_try (fs pdf_path) file_name sp_data (Frame [] out0) = (r, f) ->
    extract_pdf_info fs pdf_path sharepoint_links
    = (Ret (obj f),
       match r with
       | Ret _ => stdout f
       | Raise e => stdout f ++ [ErrorProcessing pdf_path e]
       end).
Proof.
  intros file_name sp_data out0 r f Htry.
  unfold extract_pdf_info, call. fold file_name.
  change (Str.lower file_name) with (pdf_key pdf_path). fold sp_data.
  unfold bind at 1.
  assert ((if negb (dict_truthy sp_data)
           then print (DebugNoMapping file_name (pdf_key pdf_path))
           else ret tt) (Frame ([] : list citation) [])
          = (Ret tt, Frame [] out0)) as ->.
  { subst out0. by destruct (negb (dict_truthy sp_data)). }
  unfold bind, try_except. rewrite Htry. by destruct r as [[]|e].
Qed.

(** X15: when the text of a page cannot be extracted, the records of the
    pages before it are returned, numbered from 1, the pages after it are
    not read, and the last line printed reports the error. *)
Theorem extract_pdf_info_stops_at_failing_page meta texts e rest :
  fs pdf_path
  = PdfFile (Ret (PdfReader (Ret meta)
                    (Ret ((Ret <$> texts) ++ Raise e :: rest)))) ->
  exists cs out,
    extract_pdf_info fs pdf_path sharepoint_links
    = (Ret cs, out ++ [ErrorProcessing pdf_path e])
    /\ length cs = length texts
    /\ (fun c : citation => c !! "page_number") <$> cs
       = (fun n => Some (VInt n)) <$> seqZ 1 (Z.of_nat (length texts)).
Proof.
  intros Hfile.
  eexists _, _. split.
  - erewrite extract_pdf_info_run.
    2:{ rewrite Hfile. unfold extract_pdf_try, bind, lift. cbn.
        apply for_pages_stops. }
    cbn. reflexivity.
  - cbn. split.
    + apply emitted_all_read_length.
    + apply (emitted_page_numbers _ _ texts 0).
Qed.

(** X16: a document that cannot be opened or parsed gives no record:
    whichever step raises (opening the file, building the reader, reading
    the metadata or the page list), the call returns the empty list and
    its last line reports that exception. *)
Theorem extract_pdf_info_unreadable e :
  fs pdf_path = PdfOpenRaises e
  \/ fs pdf_path = PdfFile (Raise e)
  \/ (exists ps, fs pdf_path = PdfFile (Ret (PdfReader (Raise e) ps)))
  \/ (exists meta,
        fs pdf_path = PdfFile (Ret (PdfReader (Ret meta) (Raise e)))) ->
  exists out,
    extract_pdf_info fs pdf_path sharepoint_links
    = (Ret [], out ++ [ErrorProcessing pdf_path e]).
Proof.
  intros Hfile. eexists.
  erewrite extract_pdf_info_run.
  2:{ destruct Hfile as [->|[->|[[ps ->]|[meta ->]]]];
        unfold extract_pdf_try, bind, lift, raise; cbn; reflexivity. }
  cbn. reflexivity.
Qed.

(** X17: without a registry entry the title comes from the document: the
    metadata title when there is a non-empty one, the file name without
    its extension otherwise; every record of the document carries it. *)
Theorem extract_pdf_info_title_unregistered meta ps cs out (c : citation) :
  sharepoint_links !! pdf_key pdf_path = None ->
  fs pdf_path = PdfFile (Ret (PdfReader (Ret meta) (Ret ps))) ->
  extract_pdf_info fs pdf_path sharepoint_links = (Ret cs, out) ->
  c ∈ cs ->
  (forall info t,
     meta = Some info -> info !! "/Title" = Some t -> t <> "" ->
     c !! "document_title" = Some (VStr t))
  /\ ((forall info t,
         meta = Some info -> info !! "/Title" = Some t -> t = "") ->
      c !! "document_title"
      = Some (VStr (splitext (Str.strip (basename pdf_path))).1)).
Proof.
  intros Hnone Hfile Hrun Hc.
  destruct (extract_pdf_info_records fs pdf_path sharepoint_links)
    as [out' Hrec].
  rewrite Hrun, Hfile, Hnone in Hrec. injection Hrec as -> _.
  apply emitted_is_page_record in Hc as (j & text & ->).
  destruct (page_record_fixed_fields
              (resolve_title None meta (Str.strip (basename pdf_path)))
              None j text) as (_ & -> & _).
  rewrite resolve_title_no_entry. split.
  - intros info t -> Ht Hne. by rewrite (metadata_title_present info t _ Ht Hne).
  - intros Hno. by rewrite metadata_title_fallback.
Qed.

End PdfFailures.

Lemma extract_pdf_info_stops_at_failing_page_witness :
  exists cs out,
    extract_pdf_info
      (fun _ => PdfFile (Ret (PdfReader (Ret None)
                  (Ret ((Ret <$> [Some "one"; Some "two"])
                        ++ Raise PdfReadError :: [Ret (Some "four")])))))
      "PDFs/a.pdf" ∅
    = (Ret cs, out ++ [ErrorProcessing "PDFs/a.pdf" PdfReadError])
    /\ length cs = 2%nat
    /\ (fun c : citation => c !! "page_number") <$> cs
       = [Some (VInt 1); Some (VInt 2)].
Proof.
  apply (extract_pdf_info_stops_at_failing_page _ "PDFs/a.pdf" ∅ None
           [Some "one"; Some "two"] PdfReadError [Ret (Some "four")]).
  reflexivity.
Defined.

Lemma extract_pdf_info_unreadable_witness :
  exists out,
    extract_pdf_info (fun _ => PdfOpenRaises FileNotFoundError)
      "PDFs/a.pdf" ∅
    = (Ret [], out ++ [ErrorProcessing "PDFs/a.pdf" FileNotFoundError]).
Proof.
  apply (extract_pdf_info_unreadable _ "PDFs/a.pdf" ∅ FileNotFoundError).
  left. reflexivity.
Defined.

Lemma extract_pdf_info_title_unregistered_witness :
  let c := page_record "annual.report" None 0 (Some "one") in
  (forall info t,
     @None (gmap string string) = Some info -> info !! "/Title" = Some t ->
     t <> "" -> c !! "document_title" = Some (VStr t))
  /\ ((forall info t,
         @None (gmap string string) = Some info ->
         info !! "/Title" = Some t -> t = "") ->
      c !! "document_title"
      = Some (VStr (splitext (Str.strip (basename "PDFs/annual.report.pdf"))).1)).
Proof.
  intros c.
  apply (extract_pdf_info_title_unregistered
           (fun _ => PdfFile (Ret (PdfReader (Ret None)
                                     (Ret [Ret (Some "one")]))))
           "PDFs/annual.report.pdf" ∅ None [Ret (Some "one")] [c]
           [DebugNoMapping "annual.report.pdf" "annual.report.pdf"]).
  - reflexivity.
  - reflexivity.
  - vm_compute. reflexivity.
  - apply elem_of_cons. by left.
Defined.

(** ** The loader and the extractors together *)

(** X18: for a registry that [load] returned, a registered PDF always
    takes its title from the registry: the entry has a title, possibly
    empty, and every record of the PDF carries it; the metadata title and
    the file name are not used. *)
Theorem loaded_registry_title_overrides
    csv_fs csv_path (m : registry) out
    pdf_fs pdf_path (e : entry) cs out' (c : citation) :
  load_sharepoint_links csv_fs csv_path = (Ret m, out) ->
  m !! pdf_key pdf_path = Some e ->
  extract_pdf_info pdf_fs pdf_path m = (Ret cs, out') ->
  c ∈ cs ->
  exists t, e !! "title" = Some t /\ c !! "document_title" = Some (VStr t).
Proof.
  intros Hload He Hrun Hc.
  assert (normal_registry m) as Hnormal.
  { destruct (load_try (csv_fs csv_path) (Frame ∅ [])) as [r0 f0] eqn:Htry.
    rewrite (load_returns_built csv_fs csv_path r0 f0 Htry) in Hload.
    injection Hload as <- _. by eapply load_try_normal. }
  destruct (Hnormal _ _ He) as (_ & t & w & -> & _).
  exists t. split; [by simplify_map_eq|].
  destruct (extract_pdf_info_records pdf_fs pdf_path m) as [out'' Hrec].
  rewrite Hrun, He in Hrec. injection Hrec as -> _.
  destruct (pdf_fs pdf_path) as [e'|[[[meta|e1] [ps|e2]]|e']];
    try by apply elem_of_nil in Hc.
  apply emitted_is_page_record in Hc as (j & text & ->).
  destruct (page_record_fixed_fields
              (resolve_title (Some {[ "title" := t; "web_link" := w ]}) meta
                 (Str.strip (basename pdf_path)))
              (Some {[ "title" := t; "web_link" := w ]}) j text)
    as (_ & -> & _).
  by rewrite (resolve_title_registry _ t) by (by simplify_map_eq).
Qed.

Lemma loaded_registry_title_overrides_witness :
  let e : entry := {[ "title" := "Annual Report";
                      "web_link" := "https://x/report" ]} in
  let c := page_record "Annual Report" (Some e) 0 (Some "one") in
  exists t, e !! "title" = Some t /\ c !! "document_title" = Some (VStr t).
Proof.
  intros e c.
  apply (loaded_registry_title_overrides
           (fun _ => CsvFile [Row ["Document Name"; "Title"; "Web Link"];
                              Row ["Report.pdf"; "Annual Report";
                                   "https://x/report"]])
           "urls.csv" {[ "report.pdf" := e ]}
           [DebugHeaders (Some ["Document Name"; "Title"; "Web Link"])]
           (fun _ => PdfFile (Ret (PdfReader
                                     (Ret (Some {[ "/Title" := "Meta" ]}))
                                     (Ret [Ret (Some "one")]))))
           "PDFs/REPORT.PDF" e [c] []).
  - vm_compute. reflexivity.
  - vm_compute. reflexivity.
  - vm_compute. reflexivity.
  - apply elem_of_cons. by left.
Defined.

(** X19: the text of every record, of a PDF page or of a web page, is
    clean: single spaces only, none at either end. *)
Theorem record_text_clean (c : citation) :
  (exists fs pdf_path (sharepoint_links : registry) cs out,
     extract_pdf_info fs pdf_path sharepoint_links = (Ret cs, out) /\ c ∈ cs)
  \/ (exists web url cs out,
        extract_web_info web url = (Ret cs, out) /\ c ∈ cs) ->
  exists text, c !! "text" = Some (VStr text) /\ clean text.
Proof.
  intros [(fs & p & reg & cs & out & Hrun & Hc)
         |(web & url & cs & out & Hrun & Hc)].
  - destruct (extract_pdf_info_records fs p reg) as [out' Hrec].
    rewrite Hrun in Hrec. injection Hrec as -> _.
    destruct (fs p) as [e|[[[meta|e1] [ps|e2]]|e]];
      try by apply elem_of_nil in Hc.
    apply emitted_is_page_record in Hc as (j & text & ->).
    destruct (page_record_fixed_fields
                (resolve_title (reg !! pdf_key p) meta
                   (Str.strip (basename p)))
                (reg !! pdf_key p) j text) as (_ & _ & _ & Htext & _).
    eexists. split; [exact Htext|]. apply normalize_ws_cleaned.
  - destruct (fetched_page_dec web url) as [[page Hpage]|Hno].
    + destruct (extract_web_success web url page Hpage)
        as (c' & Hrun' & _ & _ & _ & Htext & _).
      rewrite Hrun in Hrun'. injection Hrun' as -> _.
      apply list_elem_of_singleton in Hc as ->.
      eexists. split; [exact Htext|]. apply normalize_ws_cleaned.
    + destruct (extract_web_failure web url Hno) as [e Hrun'].
      rewrite Hrun in Hrun'. injection Hrun' as -> _.
      by apply elem_of_nil in Hc.
Qed.

Lemma record_text_clean_witness :
  let c := page_record "a" None 0 (Some "  one   two ") in
  exists text, c !! "text" = Some (VStr text) /\ clean text.
Proof.
  intros c. apply (record_text_clean c). left.
  exists (fun _ => PdfFile (Ret (PdfReader (Ret None)
                                   (Ret [Ret (Some "  one   two ")])))).
  exists "PDFs/a.pdf", ∅, [c], [DebugNoMapping "a.pdf" "a.pdf"].
  split; [vm_compute; reflexivity|]. apply elem_of_cons. by left.
Defined.

(** X20: what the web extractor prints: nothing when the page is fetched
    and parsed, and otherwise one line with the URL and the exception of
    the step that failed (the request, the status check or the parser). *)
Theorem extract_web_info_output web url :
  (forall e, web url = Raise e ->
     extract_web_info web url = (Ret [], [ErrorRetrieving url e]))
  /\ (forall resp e,
        web url = Ret resp -> raise_for_status resp = Raise e ->
        extract_web_info web url = (Ret [], [ErrorRetrieving url e]))
  /\ (forall resp e,
        web url = Ret resp -> raise_for_status resp = Ret tt ->
        html_parser resp = Raise e ->
        extract_web_info web url = (Ret [], [ErrorRetrieving url e]))
  /\ (forall page, fetched_page (web url) page ->
        (extract_web_info web url).2 = []).
Proof.
  unfold extract_web_info, call, try_except, extract_web_try.
  unfold bind, lift, return_obj, print, update.
  split; [|split; [|split]].
  - intros e ->. reflexivity.
  - intros resp e -> Hs. cbn. rewrite Hs. reflexivity.
  - intros resp e -> Hs Hp. cbn. rewrite Hs. cbn. rewrite Hp. reflexivity.
  - intros page (resp & -> & Hs & Hp). cbn. rewrite Hs. cbn. rewrite Hp.
    reflexivity.
Qed.

Lemma extract_web_info_output_witness :
  extract_web_info (fun _ => Ret (Response (Raise HTTPError)
                                    (Ret (Soup None []))))
    "https://example.com"
  = (Ret [], [ErrorRetrieving "https://example.com" HTTPError]).
Proof.
  apply (proj1 (proj2 (extract_web_info_output
           (fun _ => Ret (Response (Raise HTTPError) (Ret (Soup None []))))
           "https://example.com"))
           (Response (Raise HTTPError) (Ret (Soup None []))) HTTPError);
    reflexivity.
Defined.

(** ** DatasetBuilder *)

Lemma load_call fs csv_path :
  exists (m : registry) out, load_sharepoint_links fs csv_path = (Ret m, out).
Proof.
  destruct (load_try (fs csv_path) (Frame ∅ [])) as [r f] eqn:Htry.
  rewrite (load_returns_built fs csv_path r f Htry). eauto.
Qed.

Lemma pdf_call fs pdf_path (sharepoint_links : registry) :
  exists cs out,
    extract_pdf_info fs pdf_path sharepoint_links = (Ret cs, out).
Proof.
  destruct (extract_pdf_info_records fs pdf_path sharepoint_links)
    as [out Hrec]. eauto.
Qed.

Lemma web_call web url :
  exists cs out,
    extract_web_info web url = (Ret cs, out) /\ (length cs <= 1)%nat.
Proof.
  destruct (fetched_page_dec web url) as [[page Hpage]|Hno].
  - destruct (extract_web_success web url page Hpage) as (c & Hrun & _).
    exists [c], []. split; [exact Hrun|]. cbn. lia.
  - destruct (extract_web_failure web url Hno) as [e Hrun].
    eexists _, _. split; [exact Hrun|]. cbn. lia.
Qed.

Section Builder.

Variable E : env.

Lemma load_registry_returns sharepoint_csv b :
  exists out,
    load_registry E sharepoint_csv b
    = (Ret (registry_for E sharepoint_csv),
       Builder (all_citations b) (printed b ++ out)).
Proof.
  unfold load_registry, registry_for.
  destruct sharepoint_csv as [csv_path|].
  - destruct (truthy (VStr csv_path)).
    + destruct (load_call (env_csv E) csv_path) as (m & out & Hload).
      rewrite Hload. cbn. unfold hear. cbn. eauto.
    + exists []. destruct b. cbn. by rewrite app_nil_r.
  - exists []. destruct b. cbn. by rewrite app_nil_r.
Qed.

Lemma for_files_collects folder (sharepoint_links : registry) files :
  forall b, exists out,
    for_files E folder sharepoint_links files b
    = (Ret tt,
       Builder (all_citations b
                ++ pdf_records E folder sharepoint_links files)
               (printed b ++ out)).
Proof.
  unfold pdf_records.
  induction files as [|file files IH]; intros b.
  - exists []. destruct b. cbn. by rewrite !app_nil_r.
  - cbn [for_files]. destruct (is_pdf file) eqn:Hpdf.
    + destruct (pdf_call (env_pdf E) (path_join folder file) sharepoint_links)
        as (cs & out & Hcall).
      rewrite filter_cons_True by exact Hpdf. rewrite bind_cons.
      unfold records_of. rewrite Hcall. cbn [fst snd].
      destruct (IH (extend cs (hear out
                      (say (ProcessingPDF (path_join folder file)) b))))
        as [out' Hrest].
      rewrite Hrest. cbn. eexists.
      rewrite <- !app_assoc. reflexivity.
    + rewrite filter_cons_False by (by rewrite Hpdf). apply IH.
Qed.

Lemma for_urls_collects urls :
  forall b, exists out,
    for_urls E urls b
    = (Ret tt,
       Builder (all_citations b ++ web_records E urls) (printed b ++ out)).
Proof.
  unfold web_records.
  induction urls as [|url urls IH]; intros b.
  - exists []. destruct b. cbn. by rewrite !app_nil_r.
  - cbn [for_urls].
    destruct (web_call (env_web E) url) as (cs & out & Hcall & _).
    rewrite bind_cons. unfold records_of. rewrite Hcall. cbn [fst snd].
    destruct (IH (extend cs (hear out (say (ProcessingURL url) b))))
      as [out' Hrest].
    rewrite Hrest. cbn. eexists. rewrite <- !app_assoc. reflexivity.
Qed.

(** X21: the listing of the folder is outside every [try]: when
    [os.listdir] raises, the run ends with that exception and writes no
    file. *)
Theorem generate_raises_on_listing folder urls sharepoint_csv output_file e :
  env_listdir E folder = Raise e ->
  returned (generate_citation_dataset E folder urls sharepoint_csv output_file)
  = Raise e
  /\ written (generate_citation_dataset E folder urls sharepoint_csv
                output_file) = None.
Proof.
  intros Hlist. unfold generate_citation_dataset.
  destruct (load_registry_returns sharepoint_csv (Builder [] []))
    as [out ->].
  by rewrite Hlist.
Qed.

(** X22: when the folder can be listed the run returns normally,
    whatever the files, the pages and the network do.  If the write goes
    through, the file holds the records of the PDF files in listing order
    followed by those of the URLs in their order, and the last line
    printed gives their number; if it raises, the last line reports the
    error and no dataset is written. *)
Theorem generate_writes_dataset folder urls sharepoint_csv output_file files :
  env_listdir E folder = Ret files ->
  let dataset :=
    pdf_records E folder (registry_for E sharepoint_csv) files
    ++ web_records E urls in
  let r := generate_citation_dataset E folder urls sharepoint_csv
             output_file in
  returned r = Ret tt
  /\ (env_write E output_file = Ret tt ->
      written r = Some (output_file, dataset)
      /\ last (run_output r)
         = Some (SuccessfullyWrote (length dataset) output_file))
  /\ (forall e, env_write E output_file = Raise e ->
      written r = None
      /\ last (run_output r) = Some (ErrorWriting output_file e)).
Proof.
  intros Hlist dataset r. subst r. unfold generate_citation_dataset.
  destruct (load_registry_returns sharepoint_csv (Builder [] []))
    as [out0 ->].
  rewrite Hlist.
  match goal with
  | |- context [for_files E folder ?reg files ?b] =>
      destruct (for_files_collects folder reg files b) as [out1 ->]
  end.
  match goal with
  | |- context [for_urls E urls ?b] =>
      destruct (for_urls_collects urls b) as [out2 ->]
  end.
  cbn [all_citations printed app].
  unfold write_dataset. cbn [all_citations printed].
  destruct (env_write E output_file) as [[]|e'] eqn:Hwrite;
    cbn [returned written run_output].
  - split; [reflexivity|]. split.
    + intros _. split; [reflexivity|]. by rewrite last_snoc.
    + intros e He. discriminate.
  - split; [reflexivity|]. split.
    + intros He. discriminate.
    + intros e [= <-]. split; [reflexivity|]. by rewrite last_snoc.
Qed.

End Builder.

Section Dataset.

Variable E : env.

(** A run that can list the folder ends in the write of what the two
    loops collected. *)
Lemma generate_run folder urls sharepoint_csv output_file files :
  env_listdir E folder = Ret files ->
  exists out,
    generate_citation_dataset E folder urls sharepoint_csv output_file
    = write_dataset E output_file
        (Builder (pdf_records E folder (registry_for E sharepoint_csv) files
                  ++ web_records E urls) out).
Proof.
  intros Hlist. unfold generate_citation_dataset.
  destruct (load_registry_returns E sharepoint_csv (Builder [] []))
    as [out0 ->].
  rewrite Hlist.
  match goal with
  | |- context [for_files E folder ?reg files ?b] =>
      destruct (for_files_collects E folder reg files b) as [out1 ->]
  end.
  match goal with
  | |- context [for_urls E urls ?b] =>
      destruct (for_urls_collects E urls b) as [out2 ->]
  end.
  cbn [all_citations printed app]. eauto.
Qed.

Lemma pdf_records_elem folder (reg : registry) files (c : citation) :
  c ∈ pdf_records E folder reg files ->
  exists file cs out,
    extract_pdf_info (env_pdf E) (path_join folder file) reg = (Ret cs, out)
    /\ c ∈ cs.
Proof.
  unfold pdf_records. intros (file & Hc & _)%list_elem_of_bind.
  destruct (pdf_call (env_pdf E) (path_join folder file) reg)
    as (cs & out & Hcall).
  unfold records_of in Hc. rewrite Hcall in Hc. eauto.
Qed.

Lemma web_records_elem urls (c : citation) :
  c ∈ web_records E urls ->
  exists url cs out,
    extract_web_info (env_web E) url = (Ret cs, out) /\ c ∈ cs.
Proof.
  unfold web_records. intros (url & Hc & _)%list_elem_of_bind.
  destruct (web_call (env_web E) url) as (cs & out & Hcall & _).
  unfold records_of in Hc. rewrite Hcall in Hc. eauto.
Qed.

Lemma web_records_length urls :
  (length (web_records E urls) <= length urls)%nat.
Proof.
  unfold web_records. induction urls as [|url urls IH]; [reflexivity|].
  rewrite bind_cons, length_app. cbn [length].
  destruct (web_call (env_web E) url) as (cs & out & Hcall & Hlen).
  unfold records_of at 1. rewrite Hcall. cbn [fst]. lia.
Qed.

Lemma for_files_listing folder (reg : registry) listing files : forall b,
  for_files
    (Env listing (env_csv E) (env_pdf E) (env_web E) (env_write E))
    folder reg (filter (fun file => is_pdf file = true) files) b
  = for_files E folder reg files b.
Proof.
  induction files as [|file files IH]; intros b; [reflexivity|].
  cbn [for_files]. destruct (is_pdf file) eqn:Hpdf.
  - rewrite filter_cons_True by exact Hpdf. cbn [for_files env_pdf].
    rewrite Hpdf.
    destruct (extract_pdf_info (env_pdf E) (path_join folder file) reg).1;
      [apply IH|reflexivity].
  - rewrite filter_cons_False by (by rewrite Hpdf). apply IH.
Qed.

Lemma for_urls_listing listing urls : forall b,
  for_urls (Env listing (env_csv E) (env_pdf E) (env_web E) (env_write E))
    urls b
  = for_urls E urls b.
Proof.
  induction urls as [|url urls IH]; intros b; [reflexivity|].
  cbn [for_urls env_web].
  destruct (extract_web_info (env_web E) url).1; [apply IH|reflexivity].
Qed.

(** X23: the entries of the folder that are not PDF files play no part:
    a run gives the same result, output and file as a run on a folder
    that holds the PDF files only. *)
Theorem generate_ignores_other_files
    folder urls sharepoint_csv output_file files :
  env_listdir E folder = Ret files ->
  generate_citation_dataset E folder urls sharepoint_csv output_file
  = generate_citation_dataset
      (Env (fun _ => Ret (filter (fun file => is_pdf file = true) files))
           (env_csv E) (env_pdf E) (env_web E) (env_write E))
      folder urls sharepoint_csv output_file.
Proof.
  intros Hlist. unfold generate_citation_dataset. rewrite Hlist.
  cbn [env_listdir].
  change (load_registry (Env _ (env_csv E) (env_pdf E) (env_web E)
                           (env_write E)) sharepoint_csv (Builder [] []))
    with (load_registry E sharepoint_csv (Builder [] [])).
  destruct (load_registry E sharepoint_csv (Builder [] []))
    as [[reg|e] b]; [|reflexivity].
  rewrite for_files_listing.
  destruct (for_files E folder reg files b) as [[[]|e] b1]; [|reflexivity].
  rewrite for_urls_listing.
  by destruct (for_urls E urls b1) as [[[]|e] b2].
Qed.

(** X24: without a registry path ([None] or the empty string) the
    loader is not consulted and no record of the dataset carries a
    web_link. *)
Theorem generate_without_registry
    folder urls sharepoint_csv output_file files dataset (c : citation) :
  sharepoint_csv = None \/ sharepoint_csv = Some "" ->
  env_listdir E folder = Ret files ->
  written (generate_citation_dataset E folder urls sharepoint_csv
             output_file) = Some (output_file, dataset) ->
  c ∈ dataset ->
  c !! "web_link" = None.
Proof.
  intros Hcsv Hlist Hwritten Hc.
  destruct (generate_run folder urls sharepoint_csv output_file files Hlist)
    as [out Hrun].
  rewrite Hrun in Hwritten. unfold write_dataset in Hwritten.
  destruct (env_write E output_file); [|discriminate].
  cbn in Hwritten. injection Hwritten as <-.
  assert (registry_for E sharepoint_csv = ∅) as Hreg
    by (by destruct Hcsv as [->| ->]).
  rewrite Hreg in Hc. apply elem_of_app in Hc as [Hc|Hc].
  - apply pdf_records_elem in Hc as (file & cs & out' & Hcall & Hc).
    destruct (extract_pdf_info_records (env_pdf E) (path_join folder file) ∅)
      as [out'' Hrec].
    rewrite Hcall in Hrec. injection Hrec as -> _.
    destruct (env_pdf E (path_join folder file))
      as [e|[[[meta|e1] [ps|e2]]|e]]; try by apply elem_of_nil in Hc.
    apply emitted_is_page_record in Hc as (j & text & ->).
    rewrite page_record_web_link. by rewrite lookup_empty.
  - apply web_records_elem in Hc as (url & cs & out' & Hcall & Hc).
    destruct (fetched_page_dec (env_web E) url) as [[page Hpage]|Hno].
    + destruct (extract_web_success (env_web E) url page Hpage)
        as (c' & Hrun' & _ & _ & _ & _ & _ & Hlink).
      rewrite Hcall in Hrun'. injection Hrun' as -> _.
      by apply list_elem_of_singleton in Hc as ->.
    + destruct (extract_web_failure (env_web E) url Hno) as [e Hrun'].
      rewrite Hcall in Hrun'. injection Hrun' as -> _.
      by apply elem_of_nil in Hc.
Qed.

(** X25: in the dataset written, the records of the PDF files come
    first and those of the web pages after them, and there is at most one
    web record for each URL. *)
Theorem generate_dataset_order folder urls sharepoint_csv output_file files :
  env_listdir E folder = Ret files ->
  env_write E output_file = Ret tt ->
  exists pdfs webs,
    written (generate_citation_dataset E folder urls sharepoint_csv
               output_file) = Some (output_file, pdfs ++ webs)
    /\ Forall (fun c : citation => c !! "source_type" = Some (VStr "pdf"))
              pdfs
    /\ Forall (fun c : citation => c !! "source_type" = Some (VStr "web"))
              webs
    /\ (length webs <= length urls)%nat.
Proof.
  intros Hlist Hwrite.
  destruct (generate_run folder urls sharepoint_csv output_file files Hlist)
    as [out Hrun].
  exists (pdf_records E folder (registry_for E sharepoint_csv) files),
         (web_records E urls).
  split; [|split; [|split]].
  - rewrite Hrun. unfold write_dataset. by rewrite Hwrite.
  - apply Forall_forall. intros c Hc.
    apply pdf_records_elem in Hc as (file & cs & out' & Hcall & Hc).
    by destruct (pdf_record_shape _ _ _ _ _ c Hcall Hc)
      as (t & n & text & Hsrc & _).
  - apply Forall_forall. intros c Hc.
    apply web_records_elem in Hc as (url & cs & out' & Hcall & Hc).
    by destruct (web_record_shape _ _ _ _ c Hcall Hc)
      as (t & text & Hsrc & _).
  - apply web_records_length.
Qed.

End Dataset.

Lemma generate_raises_on_listing_witness :
  let E := Env (fun _ => Raise FileNotFoundError) (fun _ => CsvFile [])
               (fun _ => PdfOpenRaises FileNotFoundError)
               (fun _ => Raise ConnectionError) (fun _ => Ret tt) in
  returned (generate_citation_dataset E "PDFs" ["https://example.com"]
              (Some "urls.csv") "citations.json")
  = Raise FileNotFoundError
  /\ written (generate_citation_dataset E "PDFs" ["https://example.com"]
                (Some "urls.csv") "citations.json") = None.
Proof.
  intros E.
  apply (generate_raises_on_listing E "PDFs" ["https://example.com"]
           (Some "urls.csv") "citations.json" FileNotFoundError).
  reflexivity.
Defined.

Lemma generate_writes_dataset_witness :
  let E :=
    Env (fun _ => Ret ["report.pdf"; "notes.txt"])
        (fun _ => CsvFile [Row ["Document Name"; "Title"; "Web Link"];
                           Row ["report.pdf"; "Annual Report";
                                "https://x/report"]])
        (fun _ => PdfFile (Ret (PdfReader (Ret None)
                                  (Ret [Ret (Some "one"); Ret (Some "two")]))))
        (fun _ => Ret (Response (Ret tt)
                         (Ret (Soup (Some "Example") ["Hello"]))))
        (fun _ => Ret tt) in
  let dataset :=
    pdf_records E "PDFs" (registry_for E (Some "urls.csv"))
      ["report.pdf"; "notes.txt"]
    ++ web_records E ["https://example.com"] in
  let r := generate_citation_dataset E "PDFs" ["https://example.com"]
             (Some "urls.csv") "citations.json" in
  returned r = Ret tt
  /\ (env_write E "citations.json" = Ret tt ->
      written r = Some ("citations.json", dataset)
      /\ last (run_output r)
         = Some (SuccessfullyWrote (length dataset) "citations.json"))
  /\ (forall e, env_write E "citations.json" = Raise e ->
      written r = None
      /\ last (run_output r) = Some (ErrorWriting "citations.json" e)).
Proof.
  intros E.
  apply (generate_writes_dataset E "PDFs" ["https://example.com"]
           (Some "urls.csv") "citations.json" ["report.pdf"; "notes.txt"]).
  reflexivity.
Defined.

Lemma generate_ignores_other_files_witness :
  let E :=
    Env (fun _ => Ret ["report.pdf"; "notes.txt"; "Scan.PDF"])
        (fun _ => CsvFile [])
        (fun _ => PdfFile (Ret (PdfReader (Ret None) (Ret [Ret (Some "one")]))))
        (fun _ => Raise ConnectionError) (fun _ => Ret tt) in
  generate_citation_dataset E "PDFs" [] None "citations.json"
  = generate_citation_dataset
      (Env (fun _ => Ret (filter (fun file => is_pdf file = true)
                            ["report.pdf"; "notes.txt"; "Scan.PDF"]))
           (env_csv E) (env_pdf E) (env_web E) (env_write E))
      "PDFs" [] None "citations.json".
Proof.
  intros E.
  apply (generate_ignores_other_files E "PDFs" [] None "citations.json"
           ["report.pdf"; "notes.txt"; "Scan.PDF"]).
  reflexivity.
Defined.

Lemma generate_without_registry_witness :
  page_record "report" None 0 (Some "one") !! "web_link" = None.
Proof.
  apply (generate_without_registry
           (Env (fun _ => Ret ["report.pdf"]) (fun _ => CsvFile [])
                (fun _ => PdfFile (Ret (PdfReader (Ret None)
                                          (Ret [Ret (Some "one")]))))
                (fun _ => Raise ConnectionError) (fun _ => Ret tt))
           "PDFs" [] (Some "") "citations.json" ["report.pdf"]
           [page_record "report" None 0 (Some "one")]).
  - right. reflexivity.
  - reflexivity.
  - vm_compute. reflexivity.
  - apply elem_of_cons. by left.
Defined.

Lemma generate_dataset_order_witness :
  let E :=
    Env (fun _ => Ret ["report.pdf"]) (fun _ => CsvFile [])
        (fun _ => PdfFile (Ret (PdfReader (Ret None) (Ret [Ret (Some "one")]))))
        (fun _ => Ret (Response (Ret tt)
                         (Ret (Soup (Some "Example") ["Hello"]))))
        (fun _ => Ret tt) in
  exists pdfs webs,
    written (generate_citation_dataset E "PDFs" ["https://example.com"]
               None "citations.json")
    = Some ("citations.json", pdfs ++ webs)
    /\ Forall (fun c : citation => c !! "source_type" = Some (VStr "pdf"))
              pdfs
    /\ Forall (fun c : citation => c !! "source_type" = Some (VStr "web"))
              webs
    /\ (length webs <= length ["https://example.com"])%nat.
Proof.
  intros E.
  apply (generate_dataset_order E "PDFs" ["https://example.com"] None
           "citations.json" ["report.pdf"]); reflexivity.
Defined.

Lemma normalize_ws_clean_witness : Str.normalize_ws "a b" = "a b".
Proof.
  apply (proj1 (proj2 (normalize_ws_clean "a b"))).
  unfold clean. cbn. repeat split; reflexivity.
Defined.

Lemma is_pdf_iff_witness : is_pdf "Scan.PDF" = true.
Proof.
  apply (proj2 (is_pdf_iff "Scan.PDF")). exists "scan". reflexivity.
Defined.
